(** * DataProfiling: column type inference and summarisation

    A shallow embedding of [data_profiling.py]: the currency cleaner, the
    column type classifier [_detect_col_dtypes], the frequency binner
    [_generate_frequency_bins] and the summariser [_count_distinct_excel],
    followed by the properties of these functions.

    Conventions of the embedding.
    - A pandas column is a [Series]: either a numeric column (dtype int64 or
      float64) or an object column holding text; a missing value (NaN/None)
      is [None].  These are the columns a delimited text file loads into.
    - Numbers are exact rationals [Q]: the rounding of 64-bit floats and
      the non-finite floats are outside the model; the sum of an int64
      column wraps around as in numpy.  Equality of numbers is [Qeq], never
      syntactic equality of fractions.
    - Python exceptions are values of [exn]; a computation that may raise has
      type [result A], and [try: ... except:] is a [match] on that result.
    - The parsers of text into numbers used by [astype("float")] and by
      [pd.to_numeric] are library code: they are variables of the section
      that holds the program.
    - Reading the input file and writing the spreadsheet
      ([_load_data_from_file], [run_field_profiling]) are input and output
      around [_count_distinct_excel]: the readers of pandas are variables,
      and what is written is the name of the file with the tables and their
      first columns. *)

From Stdlib Require Import String Ascii List Bool Arith ZArith QArith Qround Qminmax.
From Stdlib Require Import Lia Lqa Permutation Sorted DecimalString.
Import ListNotations.

Local Open Scope string_scope.
Local Open Scope list_scope.

(** ** Python runtime: exceptions and fallible computations *)

Module Py.

Record exn : Type := Raise { exc_class : string; exc_msg : string }.

Definition result (A : Type) : Type := (exn + A)%type.

Definition ret {A : Type} (a : A) : result A := inr a.

Definition raise {A : Type} (cls msg : string) : result A :=
  inl (Raise cls msg).

Definition bind {A B : Type} (c : result A) (k : A -> result B) : result B :=
  match c with
  | inl e => inl e
  | inr a => k a
  end.

Definition raises {A : Type} (c : result A) : bool :=
  match c with inl _ => true | inr _ => false end.

(** [for i, x in enumerate(xs)] with a body that may raise. *)
Fixpoint mapM_from {A B : Type} (f : nat -> A -> result B) (i : nat)
  (xs : list A) : result (list B) :=
  match xs with
  | [] => ret []
  | x :: xs' =>
      bind (f i x) (fun y =>
      bind (mapM_from f (S i) xs') (fun ys => ret (y :: ys)))
  end.

(** The double quote character, for messages that quote a value. *)
Definition dquote : string := String (ascii_of_nat 34) EmptyString.

Definition str_of_nat (n : nat) : string :=
  NilEmpty.string_of_uint (Nat.to_uint n).

(** [s.startswith(p)] *)
Fixpoint startswith (p s : string) : bool :=
  match p, s with
  | EmptyString, _ => true
  | String a p', String b s' => Ascii.eqb a b && startswith p' s'
  | String _ _, EmptyString => false
  end.

(** [s.replace(pat, "")]: every non-overlapping occurrence of [pat], scanning
    from the left, is removed.  [skip] counts the characters of the current
    occurrence that remain to be dropped. *)
Fixpoint remove_from (pat : string) (skip : nat) (s : string) : string :=
  match s with
  | EmptyString => EmptyString
  | String c s' =>
      match skip with
      | S k => remove_from pat k s'
      | O =>
          match pat with
          | EmptyString => String c (remove_from pat O s')
          | String _ pat' =>
              if startswith pat s
              then remove_from pat (String.length pat') s'
              else String c (remove_from pat O s')
          end
      end
  end.

Definition str_remove (pat s : string) : string := remove_from pat O s.

(** [s.lower()] on the ASCII letters; other bytes are unchanged (no
    character outside ASCII lowers to a letter of ["index"]). *)
Definition lower_ascii (c : ascii) : ascii :=
  let n := nat_of_ascii c in
  if (65 <=? n)%nat && (n <=? 90)%nat then ascii_of_nat (n + 32) else c.

Fixpoint lower (s : string) : string :=
  match s with
  | EmptyString => EmptyString
  | String c s' => String (lower_ascii c) (lower s')
  end.

(** A [dict]: insertion-ordered; assigning an existing key replaces its
    value and keeps its position. *)
Definition dict (V : Type) : Type := list (string * V).

Fixpoint dict_set {V : Type} (k : string) (v : V) (d : dict V) : dict V :=
  match d with
  | [] => [(k, v)]
  | (k', v') :: d' =>
      if String.eqb k' k then (k', v) :: d' else (k', v') :: dict_set k v d'
  end.

Fixpoint dict_get {V : Type} (k : string) (d : dict V) : option V :=
  match d with
  | [] => None
  | (k', v') :: d' => if String.eqb k' k then Some v' else dict_get k d'
  end.

Definition keys {V : Type} (d : dict V) : list string := map fst d.
Definition values {V : Type} (d : dict V) : list V := map snd d.

End Py.

Import Py.

Declare Scope py_scope.
Delimit Scope py_scope with py.
Notation "x <- c ;; k" := (bind c (fun x => k))
  (at level 61, c at next level, right associativity) : py_scope.
Local Open Scope py_scope.

(** ** pandas: columns, tables and the operations the program calls *)

Module Pandas.

(** A column.  [Numeric] is a column of dtype int64 or float64, [Object] a
    column of dtype object holding text; [None] is a missing value. *)
Inductive Series : Type :=
| Numeric (vals : list (option Q))
| Object (vals : list (option string)).

(** A value as it appears in a label column of a summary table. *)
Inductive cell : Type :=
| NaN
| Num (x : Q)
| Str (s : string).

Definition cell_of_num (v : option Q) : cell :=
  match v with Some x => Num x | None => NaN end.

Definition cell_of_str (v : option string) : cell :=
  match v with Some s => Str s | None => NaN end.

Definition cells (s : Series) : list cell :=
  match s with
  | Numeric vals => map cell_of_num vals
  | Object vals => map cell_of_str vals
  end.

(** [len(s)] *)
Definition len (s : Series) : nat := length (cells s).

Definition isna (c : cell) : bool :=
  match c with NaN => true | _ => false end.

Definition notna (c : cell) : bool := negb (isna c).

(** Equality of values as [value_counts] groups them: numbers by value, text
    by content, and all missing values together. *)
Definition cell_eqb (a b : cell) : bool :=
  match a, b with
  | NaN, NaN => true
  | Num x, Num y => Qeq_bool x y
  | Str s, Str t => String.eqb s t
  | _, _ => false
  end.

(** Order of [sort_values(ascending=True)] on a label column: numbers by
    value, text by code point, missing values last ([na_position="last"]).
    A column never mixes numbers and text; numbers are put first. *)
Definition cell_leb (a b : cell) : bool :=
  match a, b with
  | _, NaN => true
  | NaN, _ => false
  | Num x, Num y => Qle_bool x y
  | Str s, Str t => String.leb s t
  | Num _, Str _ => true
  | Str _, Num _ => false
  end.

(** A stable sort, by insertion: [sort_values] with the order [leb]. *)
Section Sort.
Context {A : Type} (leb : A -> A -> bool).

Fixpoint insert_sorted (x : A) (l : list A) : list A :=
  match l with
  | [] => [x]
  | y :: l' => if leb x y then x :: l else y :: insert_sorted x l'
  end.

Definition sort_values (l : list A) : list A :=
  fold_right insert_sorted [] l.
End Sort.

(** [s.isna().sum()] *)
Definition isna_sum (s : Series) : nat :=
  length (filter isna (cells s)).

(** [s.dropna()] *)
Definition dropna (l : list cell) : list cell := filter notna l.

Definition count_eq (v : cell) (l : list cell) : nat :=
  length (filter (cell_eqb v) l).

(** The distinct values of a list, in order of first appearance. *)
Fixpoint unique (l : list cell) : list cell :=
  match l with
  | [] => []
  | v :: l' => v :: filter (fun w => negb (cell_eqb v w)) (unique l')
  end.

(** [s.value_counts(dropna=...)] before normalisation: one row per distinct
    value with its number of occurrences, most frequent first. *)
Definition value_counts_raw (drop : bool) (l : list cell) : list (cell * nat) :=
  let l' := if drop then dropna l else l in
  sort_values (fun a b => (snd b <=? snd a)%nat)
    (map (fun v => (v, count_eq v l')) (unique l')).

Definition Q_of_nat (n : nat) : Q := inject_Z (Z.of_nat n).

(** [s.value_counts(dropna=..., normalize=...)]: with [normalize] each count
    is divided by the sum of the counts. *)
Definition value_counts (drop normalize : bool) (s : Series)
  : list (cell * Q) :=
  let counts := value_counts_raw drop (cells s) in
  let total := Q_of_nat (list_sum (map snd counts)) in
  map (fun r => (fst r,
                 if normalize then Q_of_nat (snd r) / total
                 else Q_of_nat (snd r))) counts.

(** A table: named columns, in order. *)
Definition DataFrame : Type := list (string * Series).

(** [df[col]] *)
Definition getitem (df : DataFrame) (col : string) : result Series :=
  match dict_get col df with
  | Some s => ret s
  | None => raise "KeyError" col
  end.

(** [df.loc[:, col] = s] *)
Definition setitem (df : DataFrame) (col : string) (s : Series) : DataFrame :=
  dict_set col s df.

(** [for col in df] *)
Definition column_names (df : DataFrame) : list string := keys df.

(** The [.str] accessor exists on text columns only. *)
Definition str_accessor (s : Series) : result (list (option string)) :=
  match s with
  | Object vals => ret vals
  | Numeric _ =>
      raise "AttributeError" "Can only use .str accessor with string values!"
  end.

(** [.str.replace(pat, "", regex=False)] on the values of a text column. *)
Definition str_replace_empty (pat : string) (vals : list (option string))
  : list (option string) :=
  map (option_map (str_remove pat)) vals.

(** A two-column summary table: the names of the label and of the measure
    column, and the rows. *)
Record Subtable : Type := mkSubtable {
  columns : string * string;
  rows : list (cell * Q)
}.

End Pandas.

Import Pandas.

(** ** numpy: equal-width histograms, and Python's number formatting *)

Module Numpy.

Definition Qmin_list (x : Q) (xs : list Q) : Q := fold_left Qmin xs x.
Definition Qmax_list (x : Q) (xs : list Q) : Q := fold_left Qmax xs x.

(** The range of the bins: the minimum and the maximum of the data, [(0, 1)]
    without data, and widened by one half on each side when they coincide. *)
Definition outer_edges (data : list Q) : Q * Q :=
  match data with
  | [] => (0, 1)
  | x :: xs =>
      let lo := Qmin_list x xs in
      let hi := Qmax_list x xs in
      if Qeq_bool lo hi then (lo - (1 # 2), hi + (1 # 2)) else (lo, hi)
  end.

(** [np.linspace(lo, hi, n + 1)] *)
Definition linspace (lo hi : Q) (n : nat) : list Q :=
  map (fun i => lo + Q_of_nat i * ((hi - lo) / Q_of_nat n)) (seq 0 (S n)).

(** The bin of a value: bins are half-open, [edge i <= x < edge (i + 1)],
    but the last one, which also holds the maximum. *)
Definition bin_index (lo hi : Q) (n : nat) (x : Q) : nat :=
  Nat.min (n - 1) (Z.to_nat (Qfloor ((x - lo) / (hi - lo) * Q_of_nat n))).

(** [np.bincount(indices, minlength=n)] for indices below [n] *)
Definition bincount (indices : list nat) (n : nat) : list nat :=
  map (fun i => count_occ Nat.eq_dec indices i) (seq 0 n).

(** [np.histogram(data, bins=n)]: the counts and the [n + 1] edges. *)
Definition histogram (data : list Q) (n : nat) : list nat * list Q :=
  let (lo, hi) := outer_edges data in
  (bincount (map (bin_index lo hi n) data) n, linspace lo hi n).

(** Rounding to the nearest integer, ties to the even one. *)
Definition round_half_even (x : Q) : Z :=
  let f := Qfloor x in
  match Qcompare (x - inject_Z f) (1 # 2) with
  | Lt => f
  | Gt => (f + 1)%Z
  | Eq => if Z.even f then f else (f + 1)%Z
  end.

(** The digits of a number grouped in threes from the right: the work is
    done on the reversed digits, [n] being the size of the group that is
    being filled. *)
Fixpoint commas_rev (n : nat) (ds : list ascii) : list ascii :=
  match ds with
  | [] => []
  | d :: ds' =>
      match n with
      | 3%nat => ","%char :: d :: commas_rev 1 ds'
      | _ => d :: commas_rev (S n) ds'
      end
  end.

Definition group_thousands (digits : string) : string :=
  string_of_list_ascii
    (rev (commas_rev 0 (rev (list_ascii_of_string digits)))).

(** [format(x, " ,.0f")]: no decimals, a comma between thousands, and the
    sign position filled with a space for a number that is not negative. *)
Definition format_space_comma_0f (x : Q) : string :=
  (if Qle_bool 0 x then " " else "-")
  ++ group_thousands
       (NilZero.string_of_uint (N.to_uint (Z.to_N (Z.abs (round_half_even x))))).

(** [format(x, ",.0f")], without the sign position. *)
Definition format_comma_0f (x : Q) : string :=
  (if Qle_bool 0 x then "" else "-")
  ++ group_thousands
       (NilZero.string_of_uint (N.to_uint (Z.to_N (Z.abs (round_half_even x))))).

End Numpy.

Import Numpy.

(** ** The program *)

(** The type tags of [_detect_col_dtypes]: the strings ["integer"],
    ["float"], ["currency"] and ["string"]; the classifier stores [None]
    where no check succeeded, which is [option]'s [None] here. *)
Inductive ColumnType : Type :=
| Tinteger
| Tfloat
| Tcurrency
| Tstring.

Definition ColumnType_eqb (a b : ColumnType) : bool :=
  match a, b with
  | Tinteger, Tinteger | Tfloat, Tfloat
  | Tcurrency, Tcurrency | Tstring, Tstring => true
  | _, _ => false
  end.

(** [col_types[col] == tag] *)
Definition type_is (ty : option ColumnType) (tag : ColumnType) : bool :=
  match ty with
  | Some t => ColumnType_eqb t tag
  | None => false
  end.

(** Line 111. *)
Definition nbins : nat := 10.

(** The present values of a numeric column. *)
Definition present_values (vals : list (option Q)) : list Q :=
  flat_map (fun v => match v with Some x => [x] | None => [] end) vals.

(** The error of [pd.to_numeric] on the text [v] found at position [i]. *)
Definition unable_to_parse (v : string) (i : nat) : exn :=
  Raise "ValueError"
    ("Unable to parse string " ++ dquote ++ v ++ dquote ++ " at position "
     ++ str_of_nat i).

Section Program.

(** [float(s)] on a text value, as [astype("float")] calls it. *)
Variable float_of_str : string -> option Q.
(** The parser of [pd.to_numeric] on a text value: [None] where it raises,
    [Some None] where it reads NaN (the empty text), [Some (Some x)] where
    it reads the number [x]. *)
Variable numeric_of_str : string -> option (option Q).

(** [s.astype("float")]: a missing value becomes NaN. *)
Definition astype_float (s : Series) : result (list (option Q)) :=
  match s with
  | Numeric vals => ret vals
  | Object vals =>
      mapM_from
        (fun _ v =>
           match v with
           | None => ret None
           | Some t =>
               match float_of_str t with
               | Some x => ret (Some x)
               | None =>
                   raise "ValueError"
                     ("could not convert string to float: '" ++ t ++ "'")
               end
           end) 0 vals
  end.

(** Truncation towards zero. *)
Definition Qtrunc (x : Q) : Z := Z.quot (Qnum x) (Zpos (Qden x)).

(** [.astype("int")] on floats: NaN cannot be converted.  (A float beyond
    the int64 range, whose conversion numpy leaves to the platform, is
    outside the model.) *)
Definition astype_int (fl : list (option Q)) : result (list Z) :=
  mapM_from
    (fun _ v =>
       match v with
       | Some x => ret (Qtrunc x)
       | None =>
           raise "IntCastingNaNError"
             "Cannot convert non-finite values (NA or inf) to integer"
       end) 0 fl.

(** [.sum()] of a float column: NaN is skipped. *)
Definition float_sum (fl : list (option Q)) : Q :=
  fold_right (fun v acc => match v with Some x => x + acc | None => acc end)
    0 fl.

(** A sum of int64 values stays in the int64 range: it wraps around. *)
Definition int64_wrap (z : Z) : Z :=
  ((z + 2 ^ 63) mod 2 ^ 64 - 2 ^ 63)%Z.

(** [.sum()] of an int64 column. *)
Definition int_sum (l : list Z) : Z := int64_wrap (fold_right Z.add 0%Z l).

(** [s.astype("string")]: every value has a text form. *)
Definition astype_string (s : Series) : result Series := ret s.

(** [pd.to_numeric(vals)] on the values of a text column. *)
Definition to_numeric (vals : list (option string))
  : result (list (option Q)) :=
  mapM_from
    (fun i v =>
       match v with
       | None => ret None
       | Some t =>
           match numeric_of_str t with
           | Some x => ret x
           | None => inl (unable_to_parse t i)
           end
       end) 0 vals.

(** Lines 32-46. *)
Definition _currency_cleaner (_df : DataFrame) (fieldname : string)
  : result (list (option string)) :=
  col <- getitem _df fieldname ;;
  vals <- str_accessor col ;;
  ret (str_replace_empty ","
      (str_replace_empty "₹"
      (str_replace_empty "₣"
      (str_replace_empty "¥"
      (str_replace_empty "EUR"
      (str_replace_empty "GBP"
      (str_replace_empty "USD"
      (str_replace_empty "£"
      (str_replace_empty "€"
      (str_replace_empty "$" vals)))))))))).

(** Lines 55-58: the condition of the integer check. *)
Definition integers_check (_df : DataFrame) (col : string) : result bool :=
  s <- getitem _df col ;;
  fl <- astype_float s ;;
  it <- astype_int fl ;;
  ret (Qeq_bool (inject_Z (int_sum it)) (float_sum fl)).

(** Line 66: the condition of the float check. *)
Definition floats_check (_df : DataFrame) (col : string) : result bool :=
  s <- getitem _df col ;;
  fl <- astype_float s ;;
  ret (negb (Qle_bool (float_sum fl) 0)).

(** Lines 53-87: the body of the loop of [_detect_col_dtypes]; each
    [try: ... except:] is a [match] whose failure branch stores [None] and
    goes on.  The call of the cleaner stands outside any [try]. *)
Definition detect_col (_df : DataFrame) (col_dtypes : dict (option ColumnType))
  (col : string) : result (dict (option ColumnType)) :=
  let c1 := integers_check _df col in
  match c1 with
  | inr true => ret (dict_set col (Some Tinteger) col_dtypes)
  | _ =>
  let d1 := if raises c1 then dict_set col None col_dtypes else col_dtypes in
  let c2 := floats_check _df col in
  match c2 with
  | inr true => ret (dict_set col (Some Tfloat) d1)
  | _ =>
  let d2 := if raises c2 then dict_set col None d1 else d1 in
  attempted_clean <- _currency_cleaner _df col ;;
  match to_numeric attempted_clean with
  | inr _ => ret (dict_set col (Some Tcurrency) d2)
  | inl _ =>
  let d3 := dict_set col None d2 in
  match (s <- getitem _df col ;; astype_string s) with
  | inr _ => ret (dict_set col (Some Tstring) d3)
  | inl _ => ret (dict_set col None d3)
  end end end end.

Fixpoint detect_loop (_df : DataFrame) (cols : list string)
  (col_dtypes : dict (option ColumnType))
  : result (dict (option ColumnType)) :=
  match cols with
  | [] => ret col_dtypes
  | col :: cols' =>
      d <- detect_col _df col_dtypes col ;;
      detect_loop _df cols' d
  end.

(** Lines 49-88. *)
Definition _detect_col_dtypes (_df : DataFrame)
  : result (dict (option ColumnType)) :=
  detect_loop _df (column_names _df) [].

(** Line 116: the label of bin [idx]. *)
Definition bin_label (edges : list Q) (idx : nat) : string :=
  (format_space_comma_0f (nth idx edges 0) ++ " to <"
   ++ format_space_comma_0f (nth (S idx) edges 0))%string.

(** Lines 115-118: the dictionary comprehension, bin after bin. *)
Fixpoint labelled_from (edges : list Q) (idx : nat) (freqs : list nat)
  (acc : dict nat) : dict nat :=
  match freqs with
  | [] => acc
  | count :: freqs' =>
      labelled_from edges (S idx) freqs'
        (dict_set (bin_label edges idx) count acc)
  end.

(** The present values of a column as [np.histogram] takes them: text is
    not accepted. *)
Definition histogram_data (s : Series) : result (list Q) :=
  match s with
  | Numeric vals => ret (present_values vals)
  | Object vals =>
      if existsb (fun v => match v with Some _ => true | None => false end)
           vals
      then raise "TypeError"
         ("ufunc 'isfinite' not supported for the input types, and the "
          ++ "inputs could not be safely coerced to any supported types "
          ++ "according to the casting rule ''safe''")
      else ret []
  end.

(** Line 135: every value divided by the sum of the values.  (The sum is
    zero only for a column without rows, where pandas has NaN and the
    division of [Q] has 0.) *)
Definition divide_by_sum (rs : list (cell * Q)) : list (cell * Q) :=
  let total := fold_right Qplus 0 (map snd rs) in
  map (fun r => (fst r, snd r / total)) rs.

(** Lines 91-137. *)
Definition _generate_frequency_bins (_df : DataFrame) (fieldname : string)
  (normalize : bool) : result Subtable :=
  let col_prefix := if normalize then "pct" else "count" in
  let label_var := ("bins|" ++ fieldname)%string in
  let value_var := (col_prefix ++ "|" ++ fieldname)%string in
  col <- getitem _df fieldname ;;
  let count_nulls := isna_sum col in
  data <- histogram_data col ;;
  let (freqs, edges) := histogram data nbins in
  let labelled_bins := labelled_from edges 0 freqs [] in
  let bin_df :=
    (NaN, Q_of_nat count_nulls)
    :: map (fun kv => (Str (fst kv), Q_of_nat (snd kv))) labelled_bins in
  ret (mkSubtable (label_var, value_var)
         (if normalize then divide_by_sum bin_df else bin_df)).

(** Lines 165-182: the table of exact value counts and its order. *)
Definition value_counts_table (s : Series) (col : string)
  (sort_by : string) (normalize : bool) : Subtable :=
  let field_prefix := if normalize then "pct|" else "count|" in
  let counted := value_counts false normalize s in
  mkSubtable (col, (field_prefix ++ col)%string)
    (if String.eqb (lower sort_by) "index"
     then sort_values (fun a b => cell_leb (fst a) (fst b)) counted
     else sort_values (fun a b => Qle_bool (snd b) (snd a)) counted).

(** Lines 159-161: a currency column is replaced by its cleaned, parsed
    values. *)
Definition clean_currency_column (ty : option ColumnType)
  (_df : DataFrame) (col : string) : result DataFrame :=
  if type_is ty Tcurrency
  then
    cleaned <- _currency_cleaner _df col ;;
    parsed <- to_numeric cleaned ;;
    ret (setitem _df col (Numeric parsed))
  else ret _df.

(** Line 164: the condition that selects exact value counts. *)
Definition low_cardinality_or_string (ty : option ColumnType) (s : Series)
  : bool :=
  type_is ty Tstring
  || (length (value_counts true false s) <? 10)%nat.

(** Lines 159-188: the body of the loop of [_count_distinct_excel], for a
    column whose entry of [col_types] is [ty].  It returns the table after
    the cleaning and the summary of the column. *)
Definition count_distinct_col (ty : option ColumnType) (_df : DataFrame)
  (col : string) (sort_by : string) (normalize : bool)
  : result (DataFrame * Subtable) :=
  df' <- clean_currency_column ty _df col ;;
  s <- getitem df' col ;;
  if low_cardinality_or_string ty s
  then ret (df', value_counts_table s col sort_by normalize)
  else
    t <- _generate_frequency_bins df' col normalize ;;
    ret (df', t).

Fixpoint count_distinct_loop (col_types : dict (option ColumnType))
  (cols : list string) (sort_by : string) (normalize : bool)
  (st : DataFrame * dict Subtable) : result (DataFrame * dict Subtable) :=
  match cols with
  | [] => ret st
  | col :: cols' =>
      ty <- match dict_get col col_types with
            | Some ty => ret ty
            | None => raise "KeyError" col
            end ;;
      r <- count_distinct_col ty (fst st) col sort_by normalize ;;
      count_distinct_loop col_types cols' sort_by normalize
        (fst r, dict_set col (snd r) (snd st))
  end.

(** Lines 140-189.  The first component is the caller's table as the call
    leaves it, the second the returned dictionary. *)
Definition _count_distinct_excel (_df : DataFrame) (sort_by : string)
  (normalize : bool) : result (DataFrame * dict Subtable) :=
  col_types <- _detect_col_dtypes _df ;;
  count_distinct_loop col_types (column_names _df) sort_by normalize
    (_df, []).

End Program.

(** ** A parser of plain decimal literals

    [decimal_of_str] reads an optional sign, digits, and an optional point
    followed by digits, as Python's [float] reads them.
    It rejects every other text: the exponent forms, the surrounding blanks
    and the names of the non-finite floats that the two library parsers
    also accept are not used by the tables of this file.  It instantiates
    the parser of [astype("float")] where the program is run on a concrete
    table. *)

Definition digit_of (c : ascii) : option Z :=
  let n := nat_of_ascii c in
  if (48 <=? n)%nat && (n <=? 57)%nat then Some (Z.of_nat (n - 48)) else None.

Fixpoint parse_digits (s : string) (num : Z) (den : positive)
  (after_dot seen : bool) : option Q :=
  match s with
  | EmptyString => if seen then Some (num # den) else None
  | String c s' =>
      match digit_of c with
      | Some d =>
          parse_digits s' (10 * num + d)%Z
            (if after_dot then (10 * den)%positive else den) after_dot true
      | None =>
          if Ascii.eqb c "."%char && negb after_dot
          then parse_digits s' num den true seen
          else None
      end
  end.

Definition decimal_of_str (s : string) : option Q :=
  match s with
  | String "-"%char s' => option_map Qopp (parse_digits s' 0 1 false false)
  | String "+"%char s' => parse_digits s' 0 1 false false
  | _ => parse_digits s 0 1 false false
  end.

(** [pd.to_numeric] on the texts of the tables of this file: the empty text
    is NaN, a plain decimal literal is its value. *)
Definition numeric_of_decimal (s : string) : option (option Q) :=
  match s with
  | EmptyString => Some None
  | _ => option_map Some (decimal_of_str s)
  end.

(** The program with both parsers instantiated. *)
Definition detect := _detect_col_dtypes decimal_of_str numeric_of_decimal.
Definition profile := _count_distinct_excel decimal_of_str numeric_of_decimal.

(** [needle in hay] *)
Fixpoint contains (needle hay : string) : bool :=
  startswith needle hay
  || match hay with
     | EmptyString => false
     | String _ hay' => contains needle hay'
     end.

(** ** Loading the input, naming and laying out the output

    The readers of pandas ([pd.read_csv], [pd.read_excel], [pd.read_table])
    are variables: they return a table or raise.  Writing the spreadsheet is
    modelled by what is written: the name of the file and, for every summary
    table, the column at which it starts. *)

(** The tab character, the delimiter of [pd.read_table]. *)
Definition tab : string := String (ascii_of_nat 9) EmptyString.

(** Line 226. *)
Definition num_spacer_columns : nat := 1.

(** Lines 214-222: the name of the spreadsheet. *)
Definition output_file (input_file : string) : string :=
  ("profiled_"
   ++ (str_remove "txt"
      (str_remove ".tsv"
      (str_remove ".xlsx"
      (str_remove ".xls"
      (str_remove ".csv" input_file)))))
   ++ ".xlsx")%string.

(** Lines 225-234: [for idx, subt in enumerate(output_subtables)], each
    table with the column at which [to_excel] starts to write it. *)
Fixpoint placements_from (idx : nat) (output_subtables : dict Subtable)
  : list (nat * Subtable) :=
  match output_subtables with
  | [] => []
  | (subt, t) :: rest =>
      (idx * (2 + num_spacer_columns), t)%nat :: placements_from (S idx) rest
  end.

Section Driver.

Variable read_csv : string -> result DataFrame.
Variable read_excel : string -> result DataFrame.
Variable read_table : string -> string -> result DataFrame.
Variable float_of_str : string -> option Q.
Variable numeric_of_str : string -> option (option Q).

(** Lines 5-29.  In the last two branches the [finally] clause raises after
    the [try] and its handler, whatever they did. *)
Definition _load_data_from_file (filename : string) : result DataFrame :=
  if contains ".csv" filename then read_csv filename
  else if contains ".xlsx" filename || contains ".xls" filename
  then read_excel filename
  else if contains ".tsv" filename then read_table filename tab
  else if contains ".txt" filename then
    match (match read_table filename tab with
           | inr _df => inr _df
           | inl _ => read_table filename ","
           end) with
    | inr _ | inl _ =>
        raise "RuntimeError" "Could not detect correct delimiter for .txt file"
    end
  else
    match (match read_csv (filename ++ ".csv") with
           | inr _df => inr _df
           | inl _ => read_excel (filename ++ ".xlsx")
           end) with
    | inr _ | inl _ =>
        raise "ValueError"
          "File name must include file type extension (eg .xlsx/.csv)"
    end.

(** Lines 192-236: the file that is written, as its name and the tables
    with their first columns. *)
Definition run_field_profiling (input_file sort_by : string)
  (normalize : bool) : result (string * list (nat * Subtable)) :=
  _table <- _load_data_from_file input_file ;;
  r <- _count_distinct_excel float_of_str numeric_of_str _table sort_by
         normalize ;;
  ret (output_file input_file, placements_from 0 (snd r)).

End Driver.

(** * Vocabulary of the properties and example tables *)

(** [u] lists the distinct values of [l]: no two of its elements are equal
    values, each occurs in [l], and each value of [l] is one of them. *)
Definition distinct_values_of (l u : list cell) : Prop :=
  ForallOrdPairs (fun a b => cell_eqb a b = false) u
  /\ (forall a, In a u -> In a l)
  /\ (forall b, In b l -> exists a, In a u /\ cell_eqb a b = true).

(** The number of distinct present (non-missing) values of a column. *)
Definition n_distinct_present (s : Series) : nat :=
  length (unique (dropna (cells s))).

(** [fl] holds the values of the column [s] parsed as floats: a number is
    itself, a missing value is NaN, and a text is what [float] reads in
    it, which must exist. *)
Definition parses_as_floats (float_of_str : string -> option Q) (s : Series)
  (fl : list (option Q)) : Prop :=
  match s with
  | Numeric vals => fl = vals
  | Object vals =>
      Forall2 (fun v x =>
                 match v with
                 | None => x = None
                 | Some t => exists q, float_of_str t = Some q /\ x = Some q
                 end) vals fl
  end.

(** Rows in ascending order of their label, missing values last. *)
Definition sorted_by_label (rs : list (cell * Q)) : Prop :=
  StronglySorted (fun a b => cell_leb (fst a) (fst b) = true) rs.

(** Rows in descending order of their count or fraction. *)
Definition sorted_by_measure_desc (rs : list (cell * Q)) : Prop :=
  StronglySorted (fun a b => snd b <= snd a) rs.

(** The count of [n] rows as the table reports it: the count itself, or its
    fraction of the rows of the column when normalised. *)
Definition measure_of (normalize : bool) (s : Series) (n : nat) : Q :=
  if normalize then Q_of_nat n / Q_of_nat (len s) else Q_of_nat n.

(** The sum of the measure column of a table. *)
Definition sum_measures (rs : list (cell * Q)) : Q :=
  fold_right Qplus 0 (map snd rs).

(** The label of a bin as the specification writes it:
    ["{lower:,.0f} to <{upper:,.0f}"]. *)
Definition spec_bin_label (lower upper : Q) : string :=
  (format_comma_0f lower ++ " to <" ++ format_comma_0f upper)%string.

(** The sign position of the format [" ,.0f"] for a number that is not
    negative. *)
Definition sign_space (x : Q) : string :=
  if Qle_bool 0 x then " " else "".

(** The column [0, 0.5, 1, ..., 5]: eleven distinct values. *)
Definition halves_values : list Q :=
  [0; 1 # 2; 1; 3 # 2; 2; 5 # 2; 3; 7 # 2; 4; 9 # 2; 5].

(** The same values as a float column without missing values. *)
Definition halves : Series := Numeric (map Some halves_values).

(** The text column ["0", "1", ..., "9"]: ten numerals. *)
Definition digits_column : Series :=
  Object (map Some ["0"; "1"; "2"; "3"; "4"; "5"; "6"; "7"; "8"; "9"]).

(** The column [0, 1, ..., 9]: ten distinct values. *)
Definition ten_values : Series :=
  Numeric (map Some [0; 1; 2; 3; 4; 5; 6; 7; 8; 9]).

(** A column of 15 distinct values from 0 to 100. *)
Definition percent_values : list (option Q) :=
  map Some [0; 5; 10; 20; 25; 30; 40; 50; 55; 60; 70; 75; 80; 90; 100].


(** A table whose columns all hold text. *)
Definition text_table (df : DataFrame) : Prop :=
  Forall (fun kv => exists vals, snd kv = Object vals) df.

(** The characters of a plain decimal literal: digits, sign and point. *)
Definition plain_char (c : ascii) : bool :=
  let n := nat_of_ascii c in
  ((48 <=? n)%nat && (n <=? 57)%nat)
  || Ascii.eqb c "."%char || Ascii.eqb c "-"%char || Ascii.eqb c "+"%char.

Fixpoint plain_text (s : string) : bool :=
  match s with
  | EmptyString => true
  | String c s' => plain_char c && plain_text s'
  end.

(** The character [c] occurs in [s]. *)
Fixpoint has_char (c : ascii) (s : string) : bool :=
  match s with
  | EmptyString => false
  | String a s' => Ascii.eqb a c || has_char c s'
  end.

(** What [_currency_cleaner] makes of one text value: the ten removals of
    lines 35-44, in their order. *)
Definition clean_text (t : string) : string :=
  str_remove ","
    (str_remove "₹"
    (str_remove "₣"
    (str_remove "¥"
    (str_remove "EUR"
    (str_remove "GBP"
    (str_remove "USD"
    (str_remove "£"
    (str_remove "€"
    (str_remove "$" t))))))))).

(** * Properties *)

(** ** Sorting *)

Section SortFacts.
Context {A : Type} (leb : A -> A -> bool).

Lemma insert_sorted_perm (x : A) (l : list A) :
  Permutation (x :: l) (insert_sorted leb x l).
Proof.
  induction l as [|y l IH]; simpl.
  - apply Permutation_refl.
  - destruct (leb x y).
    + apply Permutation_refl.
    + eapply perm_trans; [apply perm_swap|].
      now apply perm_skip.
Qed.

Lemma sort_values_perm (l : list A) : Permutation l (sort_values leb l).
Proof.
  induction l as [|x l IH]; simpl.
  - constructor.
  - eapply perm_trans; [apply perm_skip, IH|].
    apply insert_sorted_perm.
Qed.

Lemma sort_values_length (l : list A) :
  length (sort_values leb l) = length l.
Proof. symmetry. apply Permutation_length, sort_values_perm. Qed.

Lemma sort_values_In (x : A) (l : list A) :
  In x (sort_values leb l) <-> In x l.
Proof.
  split; apply Permutation_in;
    [apply Permutation_sym|]; apply sort_values_perm.
Qed.

Hypothesis leb_total : forall x y, leb x y = true \/ leb y x = true.
Hypothesis leb_trans :
  forall x y z, leb x y = true -> leb y z = true -> leb x z = true.

Let R (x y : A) : Prop := leb x y = true.

Lemma insert_sorted_sorted (x : A) (l : list A) :
  StronglySorted R l -> StronglySorted R (insert_sorted leb x l).
Proof.
  induction 1 as [|y l Hs IH Hy]; simpl.
  - constructor; constructor.
  - destruct (leb x y) eqn:E.
    + constructor; [now constructor|].
      constructor; [exact E|].
      rewrite Forall_forall in *. intros z Hz.
      eapply leb_trans; [exact E|]. now apply Hy.
    + constructor; [exact IH|].
      assert (Hyx : leb y x = true).
      { destruct (leb_total x y) as [H|H]; [congruence|exact H]. }
      rewrite Forall_forall in *. intros z Hz.
      apply (Permutation_in _ (Permutation_sym (insert_sorted_perm x l)))
        in Hz.
      destruct Hz as [<-|Hz]; [exact Hyx|now apply Hy].
Qed.

Lemma sort_values_sorted (l : list A) : StronglySorted R (sort_values leb l).
Proof.
  induction l as [|x l IH]; simpl.
  - constructor.
  - now apply insert_sorted_sorted.
Qed.
End SortFacts.

(** ** The orders of the two sorts *)

Lemma string_compare_trans (a b c : string) :
  String.compare a b <> Gt -> String.compare b c <> Gt ->
  String.compare a c <> Gt.
Proof.
  revert b c.
  induction a as [|x a IH]; intros [|y b] [|z c]; simpl;
    try congruence.
  destruct (Ascii.compare x y) eqn:Exy; try congruence.
  - apply Ascii.compare_eq_iff in Exy. subst y.
    destruct (Ascii.compare x z) eqn:Exz; try congruence.
    intros H1 H2. now apply (IH b c).
  - intros _.
    destruct (Ascii.compare y z) eqn:Eyz; try congruence.
    + apply Ascii.compare_eq_iff in Eyz. subst z.
      rewrite Exy. congruence.
    + intros _.
      assert (Exz : Ascii.compare x z = Lt).
      { unfold Ascii.compare in *.
        rewrite N.compare_lt_iff in *. now apply N.lt_trans with (N_of_ascii y). }
      rewrite Exz. congruence.
Qed.

Lemma string_leb_trans (a b c : string) :
  String.leb a b = true -> String.leb b c = true -> String.leb a c = true.
Proof.
  unfold String.leb. intros H1 H2.
  assert (H : String.compare a c <> Gt).
  { apply (string_compare_trans a b c).
    - destruct (String.compare a b); congruence.
    - destruct (String.compare b c); congruence. }
  destruct (String.compare a c); congruence.
Qed.

Lemma Qle_bool_total (x y : Q) : Qle_bool x y = true \/ Qle_bool y x = true.
Proof.
  rewrite !Qle_bool_iff.
  destruct (Qlt_le_dec x y) as [H|H]; [left; now apply Qlt_le_weak|now right].
Qed.

Lemma Qle_bool_trans (x y z : Q) :
  Qle_bool x y = true -> Qle_bool y z = true -> Qle_bool x z = true.
Proof. rewrite !Qle_bool_iff. apply Qle_trans. Qed.

Lemma cell_leb_total (a b : cell) : cell_leb a b = true \/ cell_leb b a = true.
Proof.
  destruct a, b; simpl; auto using Qle_bool_total, String.leb_total.
Qed.

Lemma cell_leb_trans (a b c : cell) :
  cell_leb a b = true -> cell_leb b c = true -> cell_leb a c = true.
Proof.
  destruct a, b, c; simpl; try congruence;
    eauto using Qle_bool_trans, string_leb_trans.
Qed.

(** ** Equality of cells *)

Lemma cell_eqb_refl (a : cell) : cell_eqb a a = true.
Proof.
  destruct a; simpl; auto.
  - apply Qeq_bool_iff, Qeq_refl.
  - apply String.eqb_refl.
Qed.

Lemma cell_eqb_sym (a b : cell) : cell_eqb a b = cell_eqb b a.
Proof.
  destruct a, b; simpl; auto.
  - destruct (Qeq_bool x x0) eqn:E1, (Qeq_bool x0 x) eqn:E2; auto.
    + apply Qeq_bool_iff in E1. apply Qeq_sym, Qeq_bool_iff in E1. congruence.
    + apply Qeq_bool_iff in E2. apply Qeq_sym, Qeq_bool_iff in E2. congruence.
  - apply String.eqb_sym.
Qed.

Lemma cell_eqb_trans (a b c : cell) :
  cell_eqb a b = true -> cell_eqb b c = true -> cell_eqb a c = true.
Proof.
  destruct a, b, c; simpl; try congruence.
  - rewrite !Qeq_bool_iff. apply Qeq_trans.
  - rewrite !String.eqb_eq. congruence.
Qed.

Lemma cell_eqb_NaN (a : cell) : cell_eqb NaN a = isna a.
Proof. now destruct a. Qed.

(** ** Distinct values and their counts *)

Lemma unique_In (v : cell) (l : list cell) : In v (unique l) -> In v l.
Proof.
  induction l as [|w l IH]; simpl; [easy|].
  intros [->|H]; [now left|].
  apply filter_In in H. right. now apply IH.
Qed.

Lemma unique_complete (v : cell) (l : list cell) :
  In v l -> exists u, In u (unique l) /\ cell_eqb u v = true.
Proof.
  induction l as [|w l IH]; simpl; [easy|].
  intros [->|H].
  - exists v. split; [now left|apply cell_eqb_refl].
  - destruct (IH H) as (u & Hu & Huv).
    destruct (cell_eqb w u) eqn:E.
    + exists w. split; [now left|]. now apply cell_eqb_trans with u.
    + exists u. split; [|exact Huv].
      right. apply filter_In. split; [exact Hu|]. now rewrite E.
Qed.

Lemma ForallOrdPairs_filter {A : Type} (R : A -> A -> Prop) (p : A -> bool)
  (l : list A) : ForallOrdPairs R l -> ForallOrdPairs R (filter p l).
Proof.
  induction 1 as [|a l Ha Hl IH]; simpl; [constructor|].
  destruct (p a); [|exact IH].
  constructor; [|exact IH].
  rewrite Forall_forall in *. intros x Hx.
  apply filter_In in Hx. now apply Ha.
Qed.

Lemma unique_distinct (l : list cell) :
  ForallOrdPairs (fun a b => cell_eqb a b = false) (unique l).
Proof.
  induction l as [|w l IH]; simpl; constructor.
  - apply Forall_forall. intros x Hx.
    apply filter_In in Hx. destruct Hx as [_ Hx].
    now destruct (cell_eqb w x).
  - now apply ForallOrdPairs_filter.
Qed.

Lemma unique_is_distinct_values (l : list cell) :
  distinct_values_of l (unique l).
Proof.
  repeat split.
  - apply unique_distinct.
  - intros a. apply unique_In.
  - intros b. apply unique_complete.
Qed.

(** A list of pairwise different values, each of which is equal to some
    element of [w], is not longer than [w]. *)
Lemma distinct_length_le (u w : list cell) :
  ForallOrdPairs (fun a b => cell_eqb a b = false) u ->
  (forall a, In a u -> exists b, In b w /\ cell_eqb a b = true) ->
  (length u <= length w)%nat.
Proof.
  revert w.
  induction u as [|a u IH]; intros w Hd Hin; simpl; [lia|].
  inversion Hd as [|a' u' Ha Hu]; subst.
  destruct (Hin a (or_introl eq_refl)) as (b & Hb & Hab).
  destruct (in_split _ _ Hb) as (w1 & w2 & ->).
  rewrite length_app. simpl.
  enough (length u <= length (w1 ++ w2))%nat
    by (rewrite length_app in *; lia).
  apply IH; [exact Hu|].
  intros x Hx.
  destruct (Hin x (or_intror Hx)) as (y & Hy & Hxy).
  exists y. split; [|exact Hxy].
  apply in_app_or in Hy. apply in_or_app.
  destruct Hy as [Hy|[<-|Hy]]; auto.
  exfalso.
  rewrite Forall_forall in Ha. specialize (Ha x Hx).
  rewrite (cell_eqb_trans a b x) in Ha; [discriminate|exact Hab|].
  now rewrite cell_eqb_sym.
Qed.

(** Any two lists of the distinct values of [l] have the same length. *)
Lemma distinct_values_length (l u w : list cell) :
  distinct_values_of l u -> distinct_values_of l w -> length u = length w.
Proof.
  intros (Hu1 & Hu2 & Hu3) (Hw1 & Hw2 & Hw3).
  apply Nat.le_antisymm; apply distinct_length_le; auto.
  - intros a Ha. destruct (Hw3 a (Hu2 a Ha)) as (b & Hb & Hba).
    exists b. split; [exact Hb|]. now rewrite cell_eqb_sym.
  - intros a Ha. destruct (Hu3 a (Hw2 a Ha)) as (b & Hb & Hba).
    exists b. split; [exact Hb|]. now rewrite cell_eqb_sym.
Qed.

(** [n_distinct_present] is the length of every list of the distinct present
    values of the column. *)
Lemma n_distinct_present_spec (s : Series) (u : list cell) :
  distinct_values_of (dropna (cells s)) u -> length u = n_distinct_present s.
Proof.
  intros H. apply (distinct_values_length (dropna (cells s))); [exact H|].
  apply unique_is_distinct_values.
Qed.

Lemma value_counts_raw_length (drop : bool) (l : list cell) :
  length (value_counts_raw drop l)
  = length (unique (if drop then dropna l else l)).
Proof.
  unfold value_counts_raw. now rewrite sort_values_length, length_map.
Qed.

Lemma value_counts_length (drop normalize : bool) (s : Series) :
  length (value_counts drop normalize s)
  = length (unique (if drop then dropna (cells s) else cells s)).
Proof.
  unfold value_counts. now rewrite length_map, value_counts_raw_length.
Qed.

Lemma count_eq_split (v : cell) (l : list cell) :
  length l
  = (count_eq v l + length (filter (fun w => negb (cell_eqb v w)) l))%nat.
Proof.
  unfold count_eq.
  induction l as [|w l IH]; simpl; [reflexivity|].
  destruct (cell_eqb v w); simpl; lia.
Qed.

Lemma count_eq_filter_same (u v : cell) (l : list cell) :
  cell_eqb v u = true ->
  count_eq u (filter (fun w => negb (cell_eqb v w)) l) = 0%nat.
Proof.
  intros Hvu. unfold count_eq.
  induction l as [|w l IH]; simpl; [reflexivity|].
  destruct (cell_eqb v w) eqn:Evw; simpl; [exact IH|].
  destruct (cell_eqb u w) eqn:Euw; simpl; [|exact IH].
  rewrite (cell_eqb_trans v u w Hvu Euw) in Evw. discriminate.
Qed.

Lemma count_eq_filter_other (u v : cell) (l : list cell) :
  cell_eqb v u = false ->
  count_eq u (filter (fun w => negb (cell_eqb v w)) l) = count_eq u l.
Proof.
  intros Hvu. unfold count_eq.
  induction l as [|w l IH]; simpl; [reflexivity|].
  destruct (cell_eqb v w) eqn:Evw; simpl.
  - destruct (cell_eqb u w) eqn:Euw; simpl; [|exact IH].
    rewrite cell_eqb_sym in Euw.
    rewrite (cell_eqb_trans v w u Evw Euw) in Hvu. discriminate.
  - destruct (cell_eqb u w); simpl; now rewrite IH.
Qed.

Lemma sum_counts_filter (v : cell) (us l : list cell) :
  list_sum (map (fun u => count_eq u l)
              (filter (fun w => negb (cell_eqb v w)) us))
  = list_sum (map (fun u =>
                     count_eq u (filter (fun w => negb (cell_eqb v w)) l)) us).
Proof.
  induction us as [|u us IH]; simpl; [reflexivity|].
  destruct (cell_eqb v u) eqn:E; simpl.
  - now rewrite count_eq_filter_same.
  - now rewrite count_eq_filter_other, IH.
Qed.

(** The counts of the distinct values of [l] add up to the length of any
    list whose values all occur in [l]. *)
Lemma sum_counts_unique (l big : list cell) :
  (forall w, In w big -> exists x, In x l /\ cell_eqb x w = true) ->
  list_sum (map (fun u => count_eq u big) (unique l)) = length big.
Proof.
  revert big.
  induction l as [|v l IH]; intros big Hcov; simpl.
  - destruct big as [|w big]; [reflexivity|].
    destruct (Hcov w (or_introl eq_refl)) as (x & [] & _).
  - rewrite sum_counts_filter, IH, <- count_eq_split; [reflexivity|].
    intros w Hw. apply filter_In in Hw. destruct Hw as [Hw Hvw].
    destruct (Hcov w Hw) as (x & [<-|Hx] & Hxw).
    + rewrite Hxw in Hvw. discriminate.
    + now exists x.
Qed.

Lemma list_sum_perm (l l' : list nat) :
  Permutation l l' -> list_sum l = list_sum l'.
Proof. induction 1; simpl; lia. Qed.

(** The counts of [value_counts] add up to the number of counted rows. *)
Lemma value_counts_raw_sum (drop : bool) (l : list cell) :
  list_sum (map snd (value_counts_raw drop l))
  = length (if drop then dropna l else l).
Proof.
  unfold value_counts_raw.
  set (l' := if drop then dropna l else l).
  rewrite <- (list_sum_perm _ _
    (Permutation_map snd (sort_values_perm _ _))).
  rewrite map_map. simpl.
  apply sum_counts_unique.
  intros w Hw. exists w. split; [exact Hw|apply cell_eqb_refl].
Qed.

(** The rows of [value_counts]: one per distinct value, with its count. *)
Lemma value_counts_raw_In (drop : bool) (l : list cell) (v : cell) (n : nat) :
  In (v, n) (value_counts_raw drop l) <->
  In v (unique (if drop then dropna l else l))
  /\ n = count_eq v (if drop then dropna l else l).
Proof.
  unfold value_counts_raw. rewrite sort_values_In, in_map_iff.
  split.
  - intros (u & [= <- <-] & Hu). now split.
  - intros (Hv & ->). now exists v.
Qed.

Lemma In_NaN_unique (l : list cell) : In NaN (unique l) <-> In NaN l.
Proof.
  split; [apply unique_In|].
  induction l as [|w l IH]; simpl; [easy|].
  intros [->|H]; [now left|].
  destruct w; [now left|right..];
    (apply filter_In; split; [now apply IH|reflexivity]).
Qed.

Lemma isna_sum_pos (s : Series) : (0 < isna_sum s)%nat <-> In NaN (cells s).
Proof.
  unfold isna_sum.
  induction (cells s) as [|w l IH]; simpl; [split; [lia|easy]|].
  destruct w; simpl.
  - split; [now left|lia].
  - rewrite IH. split; [now right|]. now intros [|].
  - rewrite IH. split; [now right|]. now intros [|].
Qed.

Lemma count_eq_NaN (l : list cell) : count_eq NaN l = length (filter isna l).
Proof.
  unfold count_eq. f_equal; apply filter_ext; intros a; apply cell_eqb_NaN.
Qed.

(** ** The choice between exact counts and bins *)

Lemma type_is_Tstring (ty : option ColumnType) :
  type_is ty Tstring = true <-> ty = Some Tstring.
Proof.
  destruct ty as [[]|]; simpl; split; congruence.
Qed.

Lemma low_cardinality_or_string_iff (ty : option ColumnType) (s : Series) :
  low_cardinality_or_string ty s = true
  <-> ty = Some Tstring \/ (n_distinct_present s < 10)%nat.
Proof.
  unfold low_cardinality_or_string, n_distinct_present.
  rewrite orb_true_iff, type_is_Tstring, Nat.ltb_lt, value_counts_length.
  reflexivity.
Qed.

Lemma frequency_bins_columns (_df : DataFrame) (fieldname : string)
  (normalize : bool) (t : Subtable) :
  _generate_frequency_bins _df fieldname normalize = inr t ->
  fst (columns t) = ("bins|" ++ fieldname)%string.
Proof.
  unfold _generate_frequency_bins.
  destruct (getitem _df fieldname) as [e|c]; simpl; [discriminate|].
  destruct (histogram_data c) as [e|data]; simpl; [discriminate|].
  destruct (histogram data nbins) as [freqs edges].
  now intros [= <-].
Qed.

Lemma bins_name_differs (col : string) : col <> ("bins|" ++ col)%string.
Proof.
  intros H. apply (f_equal String.length) in H. simpl in H. lia.
Qed.

(** The choice of line 164.  For a column [s], as it stands once a currency
    column has been cleaned, the body of the loop returns the table of exact
    value counts if and only if the column's type is string or the number of
    distinct present values is below 10; in every other case it returns
    what the frequency binner returns, a table or an error, and the two
    outcomes are never the same. *)
Lemma count_distinct_col_dispatch
  (numeric_of_str : string -> option (option Q)) (ty : option ColumnType)
  (_df df' : DataFrame) (col sort_by : string) (normalize : bool)
  (s : Series) :
  clean_currency_column numeric_of_str ty _df col = inr df' ->
  getitem df' col = inr s ->
  let run := count_distinct_col numeric_of_str ty _df col sort_by normalize in
  let exact : result (DataFrame * Subtable) :=
    ret (df', value_counts_table s col sort_by normalize) in
  let binned : result (DataFrame * Subtable) :=
    t <- _generate_frequency_bins df' col normalize ;; ret (df', t) in
  (run = exact <-> ty = Some Tstring \/ (n_distinct_present s < 10)%nat)
  /\ (run = binned
      <-> ~ (ty = Some Tstring \/ (n_distinct_present s < 10)%nat))
  /\ exact <> binned.
Proof.
  intros Hclean Hget run exact binned.
  assert (Hne : exact <> binned).
  { unfold exact, binned, ret.
    destruct (_generate_frequency_bins df' col normalize) as [e|t] eqn:E;
      simpl; [discriminate|].
    intros [= Ht]. apply frequency_bins_columns in E.
    rewrite <- Ht in E. simpl in E. now apply bins_name_differs in E. }
  assert (Hrun : run = if low_cardinality_or_string ty s then exact else binned).
  { unfold run, count_distinct_col. rewrite Hclean. simpl.
    rewrite Hget. simpl. reflexivity. }
  rewrite <- low_cardinality_or_string_iff.
  destruct (low_cardinality_or_string ty s); rewrite Hrun.
  - repeat split; auto; try congruence.
  - repeat split; auto; try congruence.
Qed.

(** C1.  The text column ["0", "1", ..., "9"] is typed integer, since
    [astype("float")] reads its numerals, and has ten distinct present
    values: it is neither a string column nor of low cardinality, and line
    186 hands it to the binner.  It is handed over as text (only a currency
    column is converted to numbers, line 161), [np.histogram] raises
    [TypeError], and the summariser returns no table at all.  The numeric
    column [0, 1, ..., 9] is binned. *)
Theorem C1_text_numerals_raise_in_the_binner :
  detect [("d", digits_column)] = inr [("d", Some Tinteger)]
  /\ n_distinct_present digits_column = 10%nat
  /\ low_cardinality_or_string (Some Tinteger) digits_column = false
  /\ (exists e,
        profile [("d", digits_column)] "index" false = inl e
        /\ exc_class e = "TypeError")
  /\ (exists t,
        profile [("d", ten_values)] "index" false
        = inr ([("d", ten_values)], [("d", t)])
        /\ fst (columns t) = "bins|d").
Proof.
  split; [reflexivity|]. split; [reflexivity|]. split; [reflexivity|].
  split.
  - eexists. split; [vm_compute; reflexivity|reflexivity].
  - eexists. split; [vm_compute; reflexivity|reflexivity].
Qed.

(** ** The float check *)

Lemma mapM_from_Forall2 {A B : Type} (f : nat -> A -> result B)
  (g : A -> result B) (Hfg : forall i x, f i x = g x) (i : nat)
  (xs : list A) (ys : list B) :
  mapM_from f i xs = inr ys <-> Forall2 (fun x y => g x = inr y) xs ys.
Proof.
  revert i ys.
  induction xs as [|x xs IH]; intros i ys; simpl; unfold ret.
  - split.
    + intros [= <-]. constructor.
    + intros H. now inversion H.
  - rewrite Hfg. destruct (g x) as [e|y] eqn:Ex; simpl.
    + split; [discriminate|]. intros H. inversion H; subst. congruence.
    + destruct (mapM_from f (S i) xs) as [e|ys'] eqn:Exs; simpl.
      * split; [discriminate|]. intros H. inversion H; subst.
        match goal with
        | H' : Forall2 _ xs _ |- _ => apply (IH (S i)) in H'; congruence
        end.
      * split.
        -- intros [= <-]. constructor; [exact Ex|]. now apply (IH (S i)).
        -- intros H. inversion H; subst.
           match goal with
           | H' : Forall2 _ xs _ |- _ => apply (IH (S i)) in H'
           end.
           congruence.
Qed.

Lemma astype_float_iff (float_of_str : string -> option Q) (s : Series)
  (fl : list (option Q)) :
  astype_float float_of_str s = inr fl <-> parses_as_floats float_of_str s fl.
Proof.
  destruct s as [vals|vals]; simpl.
  - unfold ret. split; congruence.
  - rewrite mapM_from_Forall2 by reflexivity.
    split; intros H; induction H as [|v x vs xs Hv Hvs IH]; constructor; auto.
    + destruct v as [t|]; [|now inversion Hv].
      destruct (float_of_str t) as [q|]; [|discriminate].
      inversion Hv. now exists q.
    + destruct v as [t|]; [|now subst].
      destruct Hv as (q & -> & ->). reflexivity.
Qed.

(** C3.  The float check succeeds if and only if every value of the column
    parses as a float and the parsed values, NaN apart, sum to more than
    zero.  So the check does not succeed on a column whose values all parse
    and sum to zero or less. *)
Theorem C3_float_check_iff_parses_and_positive_sum
  (float_of_str : string -> option Q) (_df : DataFrame) (col : string)
  (s : Series) :
  getitem _df col = inr s ->
  (floats_check float_of_str _df col = inr true
   <-> exists fl, parses_as_floats float_of_str s fl /\ 0 < float_sum fl)
  /\ (forall fl, parses_as_floats float_of_str s fl -> float_sum fl <= 0 ->
      floats_check float_of_str _df col = inr false).
Proof.
  intros Hget. unfold floats_check. rewrite Hget. simpl.
  split.
  - split.
    + destruct (astype_float float_of_str s) as [e|fl] eqn:E; simpl;
        [discriminate|].
      intros [= H]. exists fl. split; [now apply astype_float_iff|].
      apply Qnot_le_lt. intros Hle. apply Qle_bool_iff in Hle.
      rewrite Hle in H. discriminate.
    + intros (fl & Hp & Hpos). apply astype_float_iff in Hp.
      rewrite Hp. simpl. unfold ret. f_equal.
      destruct (Qle_bool (float_sum fl) 0) eqn:E; [|reflexivity].
      apply Qle_bool_iff in E. exfalso. now apply (Qlt_not_le _ _ Hpos).
  - intros fl Hp Hle. apply astype_float_iff in Hp. rewrite Hp. simpl.
    apply Qle_bool_iff in Hle. now rewrite Hle.
Qed.

(** The float check on the column [-1.5, -2.5]: both values parse, the sum
    is -4, the check does not succeed. *)
Lemma C3_witness :
  let df := [("x", Numeric [Some (-3 # 2); Some (-5 # 2)])] in
  let s := Numeric [Some (-3 # 2); Some (-5 # 2)] in
  getitem df "x" = inr s
  /\ (floats_check decimal_of_str df "x" = inr true
      <-> exists fl, parses_as_floats decimal_of_str s fl /\ 0 < float_sum fl)
  /\ floats_check decimal_of_str df "x" = inr false.
Proof.
  split; [reflexivity|].
  destruct (C3_float_check_iff_parses_and_positive_sum decimal_of_str
              [("x", Numeric [Some (-3 # 2); Some (-5 # 2)])] "x"
              (Numeric [Some (-3 # 2); Some (-5 # 2)]) eq_refl)
    as [Hiff Hneg].
  split; [exact Hiff|].
  apply (Hneg [Some (-3 # 2); Some (-5 # 2)]); [reflexivity|].
  vm_compute. discriminate.
Defined.

(** ** The order of the rows of an exact-count table *)

Lemma StronglySorted_weaken {A : Type} (R R' : A -> A -> Prop) (l : list A) :
  (forall x y, R x y -> R' x y) -> StronglySorted R l -> StronglySorted R' l.
Proof.
  intros HR. induction 1 as [|a l Hs IH Ha]; constructor; auto.
  eapply Forall_impl; [|exact Ha]. auto.
Qed.

Lemma raises_count_distinct_col (numeric_of_str : string -> option (option Q))
  (ty : option ColumnType) (_df : DataFrame) (col : string)
  (normalize : bool) (sort_by sort_by' : string) :
  raises (count_distinct_col numeric_of_str ty _df col sort_by normalize)
  = raises (count_distinct_col numeric_of_str ty _df col sort_by' normalize).
Proof.
  unfold count_distinct_col.
  destruct (clean_currency_column numeric_of_str ty _df col) as [e|df'];
    simpl; [reflexivity|].
  destruct (getitem df' col) as [e|s]; simpl; [reflexivity|].
  destruct (low_cardinality_or_string ty s); reflexivity.
Qed.

(** C10.  Whatever string [sort_by] is, the exact-count table holds the rows
    of [value_counts]; they are in ascending order of the value when the
    lowercased [sort_by] is ["index"] (for instance ["INDEX"], ["Index"]) and
    in descending order of the count or fraction for every other string.
    Whether the summary of a column raises does not depend on [sort_by]. *)
Theorem C10_sort_by_index_or_measure
  (numeric_of_str : string -> option (option Q)) (ty : option ColumnType)
  (_df : DataFrame) (s : Series) (col sort_by : string) (normalize : bool) :
  let t := value_counts_table s col sort_by normalize in
  Permutation (value_counts false normalize s) (rows t)
  /\ (if String.eqb (lower sort_by) "index"
      then sorted_by_label (rows t)
      else sorted_by_measure_desc (rows t))
  /\ lower "INDEX" = "index" /\ lower "Index" = "index"
  /\ forall sort_by',
       raises (count_distinct_col numeric_of_str ty _df col sort_by normalize)
       = raises (count_distinct_col numeric_of_str ty _df col sort_by'
                   normalize).
Proof.
  unfold value_counts_table. simpl.
  split; [|split; [|repeat split]].
  - destruct (String.eqb (lower sort_by) "index"); apply sort_values_perm.
  - destruct (String.eqb (lower sort_by) "index").
    + apply sort_values_sorted.
      * intros x y. apply cell_leb_total.
      * intros x y z. apply cell_leb_trans.
    + apply StronglySorted_weaken
        with (R := fun a b => Qle_bool (snd b) (snd a) = true).
      * intros x y. apply Qle_bool_iff.
      * apply (sort_values_sorted (fun a b => Qle_bool (snd b) (snd a))).
        -- intros x y. apply Qle_bool_total.
        -- intros x y z H1 H2. eapply Qle_bool_trans; eassumption.
  - intros sort_by'. apply raises_count_distinct_col.
Qed.

(** ** The row of missing values in an exact-count table *)

Lemma filter_filter_comm {A : Type} (p q : A -> bool) (l : list A) :
  filter p (filter q l) = filter q (filter p l).
Proof.
  induction l as [|a l IH]; simpl; [reflexivity|].
  destruct (p a) eqn:Ep, (q a) eqn:Eq; simpl; rewrite ?Ep, ?Eq, IH;
    reflexivity.
Qed.

Lemma filter_filter_absorb {A : Type} (p q : A -> bool) (l : list A) :
  (forall x, p x = true -> q x = true) ->
  filter p (filter q l) = filter p l.
Proof.
  intros H. induction l as [|a l IH]; simpl; [reflexivity|].
  destruct (q a) eqn:Eq; simpl.
  - now rewrite IH.
  - destruct (p a) eqn:Ep; [|exact IH].
    rewrite (H a Ep) in Eq. discriminate.
Qed.

Lemma unique_dropna (l : list cell) : unique (dropna l) = dropna (unique l).
Proof.
  unfold dropna.
  induction l as [|w l IH]; simpl; [reflexivity|].
  destruct w; simpl.
  - rewrite IH. symmetry. apply filter_filter_absorb. now intros [| |].
  - now rewrite IH, filter_filter_comm.
  - now rewrite IH, filter_filter_comm.
Qed.

Lemma unique_isna_length (l : list cell) :
  length (filter isna (unique l)) = if existsb isna l then 1%nat else 0%nat.
Proof.
  induction l as [|w l IH]; simpl; [reflexivity|].
  destruct w; simpl.
  - assert (H : forall u, filter (fun w => negb (cell_eqb NaN w))
                            (filter isna u) = []).
    { induction u as [|a u IHu]; simpl; [reflexivity|].
      destruct a; simpl; exact IHu. }
    rewrite filter_filter_comm, H. reflexivity.
  - rewrite filter_filter_absorb; [exact IH|]. now intros [| |].
  - rewrite filter_filter_absorb; [exact IH|]. now intros [| |].
Qed.

Lemma filter_partition_length {A : Type} (p : A -> bool) (l : list A) :
  length l
  = (length (filter p l) + length (filter (fun x => negb (p x)) l))%nat.
Proof.
  induction l as [|a l IH]; simpl; [reflexivity|].
  destruct (p a); simpl; lia.
Qed.

Lemma existsb_isna (s : Series) :
  existsb isna (cells s) = (0 <? isna_sum s)%nat.
Proof.
  unfold isna_sum.
  induction (cells s) as [|w l IH]; simpl; [reflexivity|].
  destruct w; simpl; auto.
Qed.

Lemma value_counts_In (normalize : bool) (s : Series) (v : cell) (m : Q) :
  In (v, m) (value_counts false normalize s) <->
  In v (unique (cells s)) /\ m = measure_of normalize s (count_eq v (cells s)).
Proof.
  unfold value_counts, measure_of, len.
  rewrite value_counts_raw_sum, in_map_iff.
  split.
  - intros ([u n] & [= <- <-] & Hin). simpl.
    apply value_counts_raw_In in Hin. destruct Hin as [Hu ->]. now split.
  - intros (Hv & ->). exists (v, count_eq v (cells s)). split; [reflexivity|].
    now apply value_counts_raw_In.
Qed.

Lemma value_counts_table_rows_In (s : Series) (col sort_by : string)
  (normalize : bool) (r : cell * Q) :
  In r (rows (value_counts_table s col sort_by normalize))
  <-> In r (value_counts false normalize s).
Proof.
  unfold value_counts_table. simpl.
  destruct (String.eqb (lower sort_by) "index"); apply sort_values_In.
Qed.

Lemma value_counts_table_rows_length (s : Series) (col sort_by : string)
  (normalize : bool) :
  length (rows (value_counts_table s col sort_by normalize))
  = length (unique (cells s)).
Proof.
  unfold value_counts_table. simpl.
  destruct (String.eqb (lower sort_by) "index");
    now rewrite sort_values_length, value_counts_length.
Qed.

Lemma distinct_In_eq (l : list cell) (a b : cell) :
  ForallOrdPairs (fun x y => cell_eqb x y = false) l ->
  In a l -> In b l -> cell_eqb a b = true -> a = b.
Proof.
  induction 1 as [|x l Hx Hl IH]; simpl; [easy|].
  rewrite Forall_forall in Hx.
  intros [->|Ha] [->|Hb] Hab; auto.
  - rewrite (Hx b Hb) in Hab. discriminate.
  - rewrite cell_eqb_sym, (Hx a Ha) in Hab. discriminate.
Qed.

Lemma count_eq_compat (u v : cell) (l : list cell) :
  cell_eqb u v = true -> count_eq u l = count_eq v l.
Proof.
  intros Huv. unfold count_eq. f_equal. apply filter_ext. intros w.
  destruct (cell_eqb u w) eqn:E1, (cell_eqb v w) eqn:E2; auto.
  - rewrite cell_eqb_sym in Huv.
    rewrite (cell_eqb_trans v u w Huv E1) in E2. discriminate.
  - rewrite (cell_eqb_trans u v w Huv E2) in E1. discriminate.
Qed.

(** C4, as the code has it.  An exact-count table has a row for missing
    values exactly when the column has at least one missing value; that row
    then carries the number of missing values (or its fraction of the rows).
    Every present value of the column has its row, with the number of rows
    of the column that hold it (or its fraction); every row of the table is
    the row of a value of the column, with that number; no two rows are rows
    of the same value.  So the table has one row per distinct present value,
    the row of missing values if there is one, and no other row. *)
Theorem C4_missing_row_iff_missing_values
  (s : Series) (col sort_by : string) (normalize : bool) :
  let t := value_counts_table s col sort_by normalize in
  (forall m, In (NaN, m) (rows t)
             <-> (0 < isna_sum s)%nat
                 /\ m = measure_of normalize s (isna_sum s))
  /\ (forall v, In v (dropna (cells s)) ->
                exists u,
                  cell_eqb u v = true
                  /\ In (u, measure_of normalize s (count_eq v (cells s)))
                       (rows t))
  /\ (forall u m, In (u, m) (rows t) ->
                  In u (cells s)
                  /\ m = measure_of normalize s (count_eq u (cells s)))
  /\ (forall r r', In r (rows t) -> In r' (rows t) ->
                   cell_eqb (fst r) (fst r') = true -> r = r')
  /\ length (rows t)
     = (n_distinct_present s + if (0 <? isna_sum s)%nat then 1 else 0)%nat.
Proof.
  cbv zeta. split; [|split; [|split; [|split]]].
  - intros m.
    rewrite value_counts_table_rows_In, value_counts_In, In_NaN_unique,
      count_eq_NaN, isna_sum_pos.
    reflexivity.
  - intros v Hv. apply filter_In in Hv. destruct Hv as [Hv _].
    destruct (unique_complete v (cells s) Hv) as (u & Hu & Huv).
    exists u. split; [exact Huv|].
    rewrite value_counts_table_rows_In, value_counts_In.
    split; [exact Hu|]. now rewrite (count_eq_compat u v).
  - intros u m H.
    rewrite value_counts_table_rows_In, value_counts_In in H.
    destruct H as [Hu ->]. split; [now apply unique_In|reflexivity].
  - intros [u m] [u' m'] H H' Heq. simpl in Heq.
    rewrite value_counts_table_rows_In, value_counts_In in H, H'.
    destruct H as [Hu ->], H' as [Hu' ->].
    assert (u = u')
      by (apply (distinct_In_eq (unique (cells s))); auto using unique_distinct).
    now subst.
  - rewrite value_counts_table_rows_length.
    unfold n_distinct_present.
    rewrite unique_dropna, (filter_partition_length isna (unique (cells s))),
      unique_isna_length, existsb_isna.
    unfold dropna, notna. lia.
Qed.

(** C4, as the claim has it, fails: the table of the column [1, 2, 3, 4] has
    the four rows of its values and no row for missing values. *)
Lemma C4_counterexample :
  let s := Numeric [Some 1; Some 2; Some 3; Some 4] in
  let t := value_counts_table s "a" "index" false in
  profile [("a", s)] "index" false = inr ([("a", s)], [("a", t)])
  /\ rows t = [(Num 1, 1); (Num 2, 1); (Num 3, 1); (Num 4, 1)]
  /\ ~ (exists m, In (NaN, m) (rows t)).
Proof.
  split; [reflexivity|]. split; [reflexivity|].
  intros (m & H). simpl in H.
  repeat (destruct H as [H|H]; [discriminate H|]). exact H.
Qed.

(** ** The classifier and the [.str] accessor *)

(** C2.  The classifier raises on a float column that passes neither the
    integer nor the float check: the call of [_currency_cleaner] stands
    outside every [try], and the [.str] accessor it uses does not exist on a
    numeric column.  So it is on the column [-1.5, -2.5] and on a numeric
    column of missing values only, whatever the parsers of text are. *)
Theorem C2_classifier_raises_outside_try
  (float_of_str : string -> option Q)
  (numeric_of_str : string -> option (option Q)) :
  _detect_col_dtypes float_of_str numeric_of_str
    [("x", Numeric [Some (-3 # 2); Some (-5 # 2)])]
  = raise "AttributeError" "Can only use .str accessor with string values!"
  /\ _detect_col_dtypes float_of_str numeric_of_str
       [("y", Numeric [None; None])]
     = raise "AttributeError" "Can only use .str accessor with string values!"
  /\ integers_check float_of_str
       [("x", Numeric [Some (-3 # 2); Some (-5 # 2)])] "x" = inr false
  /\ floats_check float_of_str
       [("x", Numeric [Some (-3 # 2); Some (-5 # 2)])] "x" = inr false.
Proof. repeat split. Qed.

(** ** The frequency binner *)

(** C5.  On the column [0, 0.5, ..., 5] the ten bins have the edges
    [0, 0.5, ..., 5]; the labels of the bins [[2, 2.5)] and [[1.5, 2)] are
    both [" 2 to < 2"], those of [[4, 4.5)] and [[3.5, 4)] both
    [" 4 to < 4"], and the dictionary keeps one count for each label.  The
    table has eight bin rows; their counts and the missing count add up to
    9, the column has 11 rows. *)
Theorem C5_equal_labels_lose_counts :
  exists t,
    _generate_frequency_bins [("x", halves)] "x" false = inr t
    /\ map fst (rows t)
       = [NaN; Str " 0 to < 0"; Str " 0 to < 1"; Str " 1 to < 2";
          Str " 2 to < 2"; Str " 2 to < 3"; Str " 3 to < 4";
          Str " 4 to < 4"; Str " 4 to < 5"]
    /\ sum_measures (rows t) == 9
    /\ len halves = 11%nat
    /\ ~ sum_measures (rows t) == Q_of_nat (len halves)
    /\ fst (histogram halves_values nbins)
       = [1; 1; 1; 1; 1; 1; 1; 1; 1; 2]%nat
    /\ Forall2 Qeq (snd (histogram halves_values nbins))
         [0; 1 # 2; 1; 3 # 2; 2; 5 # 2; 3; 7 # 2; 4; 9 # 2; 5]
    /\ exists df, profile [("x", halves)] "index" false
                  = inr (df, [("x", t)]).
Proof.
  eexists. split; [vm_compute; reflexivity|].
  split; [reflexivity|]. split; [reflexivity|]. split; [reflexivity|].
  split; [discriminate|].
  split; [reflexivity|]. split; [repeat constructor|].
  eexists. vm_compute. reflexivity.
Qed.

(** C8.  On the same column the normalised table divides every count by 9,
    the sum of the counts that the table reports, and not by 11, the number
    of rows of the column: the fractions of the bin [" 0 to < 1"] are 1/9 and
    1/11, more than a hundredth apart. *)
Theorem C8_normalised_by_reported_sum :
  exists traw tnorm,
    _generate_frequency_bins [("x", halves)] "x" false = inr traw
    /\ _generate_frequency_bins [("x", halves)] "x" true = inr tnorm
    /\ In (Str " 0 to < 1", 1 # 1) (rows traw)
    /\ In (Str " 0 to < 1", (1 # 1) / (9 # 1)) (rows tnorm)
    /\ Q_of_nat (len halves) == 11
    /\ 1 # 100 < (1 # 1) / (9 # 1) - (1 # 1) / Q_of_nat (len halves)
    /\ Forall2 (fun r n => fst r = fst n /\ snd n == snd r / 9)
         (rows traw) (rows tnorm).
Proof.
  eexists. eexists.
  split; [vm_compute; reflexivity|].
  split; [vm_compute; reflexivity|].
  split; [simpl; tauto|].
  split; [simpl; tauto|].
  split; [reflexivity|].
  split; [reflexivity|].
  repeat constructor.
Qed.

(** ** Dictionaries *)

Lemma dict_get_set_same {V : Type} (k : string) (v : V) (d : dict V) :
  dict_get k (dict_set k v d) = Some v.
Proof.
  induction d as [|[k' v'] d IH]; simpl.
  - now rewrite String.eqb_refl.
  - destruct (String.eqb k' k) eqn:E; simpl; now rewrite E.
Qed.

Lemma keys_dict_set {V : Type} (k k0 : string) (v : V) (d : dict V) :
  In k0 (keys (dict_set k v d)) <-> k0 = k \/ In k0 (keys d).
Proof.
  unfold keys.
  induction d as [|[k' v'] d IH]; simpl.
  - intuition.
  - destruct (String.eqb k' k) eqn:E; simpl.
    + apply String.eqb_eq in E. subst k'. intuition.
    + rewrite IH. intuition.
Qed.


(** ** The summariser on every column *)

Lemma count_distinct_loop_keys (numeric_of_str : string -> option (option Q))
  (col_types : dict (option ColumnType)) (sort_by : string)
  (normalize : bool) (cols : list string) :
  forall st st',
    count_distinct_loop numeric_of_str col_types cols sort_by normalize st
    = inr st' ->
    forall k, In k cols \/ In k (keys (snd st)) -> In k (keys (snd st')).
Proof.
  induction cols as [|col cols IH]; intros st st'; simpl.
  - intros [= <-] k [[]|H]. exact H.
  - destruct (dict_get col col_types) as [ty|]; simpl; [|discriminate].
    destruct (count_distinct_col numeric_of_str ty (fst st) col sort_by
                normalize) as [e|r]; simpl; [discriminate|].
    intros Hloop k Hk. apply (IH _ _ Hloop). simpl.
    rewrite keys_dict_set.
    destruct Hk as [[<-|Hk]|Hk]; auto.
Qed.

Lemma dict_get_Some_In {V : Type} (k : string) (v : V) (d : dict V) :
  dict_get k d = Some v -> In k (keys d).
Proof.
  unfold keys. induction d as [|[k' v'] d IH]; simpl; [discriminate|].
  destruct (String.eqb k' k) eqn:E.
  - apply String.eqb_eq in E. now left.
  - intros H. right. now apply IH.
Qed.

(** ** Currency columns *)

Lemma mapM_from_first_error {A B : Type} (f : nat -> A -> result B)
  (xs : list A) :
  forall (i0 i : nat) (x : A) (e : exn),
    nth_error xs i = Some x ->
    f (i0 + i)%nat x = inl e ->
    (forall j y, (j < i)%nat -> nth_error xs j = Some y ->
                 exists b, f (i0 + j)%nat y = inr b) ->
    mapM_from f i0 xs = inl e.
Proof.
  induction xs as [|a xs IH]; intros i0 i x e Hnth Hf Hbefore.
  - destruct i; discriminate.
  - destruct i as [|i]; simpl in *.
    + injection Hnth as ->. rewrite Nat.add_0_r in Hf. now rewrite Hf.
    + destruct (Hbefore 0%nat a (Nat.lt_0_succ i) eq_refl) as (b & Hb).
      rewrite Nat.add_0_r in Hb. rewrite Hb. simpl.
      rewrite (IH (S i0) i x e); [reflexivity|exact Hnth| |].
      * now rewrite Nat.add_succ_comm.
      * intros j y Hj Hy.
        destruct (Hbefore (S j) y) as (c & Hc); [lia|exact Hy|].
        exists c. now rewrite Nat.add_succ_comm.
Qed.

Lemma to_numeric_first_error (numeric_of_str : string -> option (option Q))
  (vals : list (option string)) (i : nat) (v : string) :
  nth_error vals i = Some (Some v) ->
  numeric_of_str v = None ->
  (forall j w, (j < i)%nat -> nth_error vals j = Some (Some w) ->
               numeric_of_str w <> None) ->
  to_numeric numeric_of_str vals = inl (unable_to_parse v i).
Proof.
  intros Hnth Hv Hbefore. unfold to_numeric.
  apply (mapM_from_first_error _ vals 0 i (Some v)); [exact Hnth| |].
  - simpl. now rewrite Hv.
  - intros j [w|] Hj Hy; simpl; [|now eexists].
    specialize (Hbefore j w Hj Hy).
    destruct (numeric_of_str w); [now eexists|congruence].
Qed.


Lemma startswith_app (p s : string) : startswith p (p ++ s) = true.
Proof.
  induction p as [|a p IH]; simpl; [reflexivity|].
  now rewrite Ascii.eqb_refl, IH.
Qed.

Lemma contains_startswith (needle hay : string) :
  startswith needle hay = true -> contains needle hay = true.
Proof. intros H. destruct hay; simpl; now rewrite H. Qed.

Lemma contains_app (needle a b : string) :
  contains needle (a ++ needle ++ b) = true.
Proof.
  induction a as [|c a IH]; simpl.
  - apply contains_startswith, startswith_app.
  - rewrite IH. apply orb_true_r.
Qed.

(** ** The labels of the bins *)

Lemma string_app_assoc (a b c : string) :
  ((a ++ b) ++ c = a ++ b ++ c)%string.
Proof. induction a as [|x a IH]; simpl; [reflexivity|now rewrite IH]. Qed.

Lemma format_space_comma_0f_eq (x : Q) :
  format_space_comma_0f x = (sign_space x ++ format_comma_0f x)%string.
Proof.
  unfold format_space_comma_0f, format_comma_0f, sign_space.
  now destruct (Qle_bool 0 x).
Qed.

Lemma labelled_from_keys (edges : list Q) (freqs : list nat) :
  forall (idx : nat) (acc : dict nat) (k : string),
    In k (keys (labelled_from edges idx freqs acc))
    <-> In k (keys acc)
        \/ exists j, (j < length freqs)%nat
                     /\ k = bin_label edges (idx + j).
Proof.
  induction freqs as [|c freqs IH]; intros idx acc k; simpl.
  - split; [now left|]. intros [H|(j & Hj & _)]; [exact H|lia].
  - rewrite IH, keys_dict_set. split.
    + intros [[->|H]|(j & Hj & ->)].
      * right. exists 0%nat. split; [lia|]. now rewrite Nat.add_0_r.
      * now left.
      * right. exists (S j). split; [lia|]. now rewrite Nat.add_succ_r.
    + intros [H|(j & Hj & ->)]; [now left; right|].
      destruct j as [|j].
      * left; left. now rewrite Nat.add_0_r.
      * right. exists j. split; [lia|]. now rewrite Nat.add_succ_r.
Qed.

Lemma histogram_counts_length (data : list Q) (n : nat) :
  length (fst (histogram data n)) = n.
Proof.
  unfold histogram. destruct (outer_edges data) as [lo hi]. simpl.
  unfold bincount. now rewrite length_map, length_seq.
Qed.

Lemma divide_by_sum_labels (rs : list (cell * Q)) :
  map fst (divide_by_sum rs) = map fst rs.
Proof. unfold divide_by_sum. rewrite map_map. reflexivity. Qed.

(** The labels of a binned table: no label for the row of missing values,
    then the keys of the dictionary of bins. *)
Lemma frequency_bins_labels (_df : DataFrame) (col : string)
  (normalize : bool) (vals : list (option Q)) :
  getitem _df col = inr (Numeric vals) ->
  exists t,
    _generate_frequency_bins _df col normalize = inr t
    /\ map fst (rows t)
       = NaN :: map Str
                  (keys (labelled_from
                           (snd (histogram (present_values vals) nbins)) 0
                           (fst (histogram (present_values vals) nbins)) [])).
Proof.
  intros Hget. unfold _generate_frequency_bins. rewrite Hget. simpl.
  fold (present_values vals).
  destruct (histogram (present_values vals) nbins) as [freqs edges].
  eexists. split; [reflexivity|]. simpl.
  destruct normalize; rewrite ?divide_by_sum_labels; simpl;
    unfold keys; now rewrite !map_map.
Qed.

(** C7, as the code has it.  The labels of a binned table are the labels of
    the ten bins, and the label of a bin is
    ["{lower: ,.0f} to <{upper: ,.0f}"]: each edge without decimals and with
    a comma between thousands, as the specification formats it, but with a
    space before an edge that is not negative. *)
Theorem C7_bin_labels_fill_the_sign_position
  (_df : DataFrame) (col : string) (normalize : bool)
  (vals : list (option Q)) :
  getitem _df col = inr (Numeric vals) ->
  let edges := snd (histogram (present_values vals) nbins) in
  exists t,
    _generate_frequency_bins _df col normalize = inr t
    /\ (forall label,
          In (Str label) (map fst (rows t))
          <-> exists idx, (idx < nbins)%nat /\ label = bin_label edges idx)
    /\ (forall idx,
          bin_label edges idx
          = (sign_space (nth idx edges 0)
             ++ format_comma_0f (nth idx edges 0) ++ " to <"
             ++ sign_space (nth (S idx) edges 0)
             ++ format_comma_0f (nth (S idx) edges 0))%string).
Proof.
  intros Hget edges.
  destruct (frequency_bins_labels _df col normalize vals Hget)
    as (t & Ht & Hlabels).
  exists t. split; [exact Ht|]. split.
  - intros label. rewrite Hlabels. simpl.
    rewrite in_map_iff. split.
    + intros [H|(k & [= ->] & Hk)]; [discriminate|].
      apply labelled_from_keys in Hk. destruct Hk as [[]|(j & Hj & ->)].
      rewrite histogram_counts_length in Hj. now exists j.
    + intros (idx & Hidx & ->). right. exists (bin_label edges idx).
      split; [reflexivity|].
      apply labelled_from_keys. right. exists idx.
      now rewrite histogram_counts_length.
  - intros idx. unfold bin_label.
    now rewrite !format_space_comma_0f_eq, !string_app_assoc.
Qed.

(** The labels of a column of 15 distinct values from 0 to 100. *)
Lemma C7_witness :
  let df := [("x", Numeric percent_values)] in
  let edges := snd (histogram (present_values percent_values) nbins) in
  getitem df "x" = inr (Numeric percent_values)
  /\ exists t,
      _generate_frequency_bins df "x" true = inr t
      /\ (forall label,
            In (Str label) (map fst (rows t))
            <-> exists idx, (idx < nbins)%nat /\ label = bin_label edges idx)
      /\ (forall idx,
            bin_label edges idx
            = (sign_space (nth idx edges 0)
               ++ format_comma_0f (nth idx edges 0) ++ " to <"
               ++ sign_space (nth (S idx) edges 0)
               ++ format_comma_0f (nth (S idx) edges 0))%string).
Proof.
  split; [reflexivity|].
  apply (C7_bin_labels_fill_the_sign_position
           [("x", Numeric percent_values)] "x" true percent_values).
  reflexivity.
Defined.

(** C7, as the claim has it, fails: on a column of 15 distinct values from 0
    to 100 the bins are ten units wide, and the first and the last are
    labelled [" 0 to < 10"] and [" 90 to < 100"]; the labels
    ["0 to <10"] and ["90 to <100"] of the specification are not in the
    table. *)
Lemma C7_counterexample :
  exists t,
    _generate_frequency_bins [("x", Numeric percent_values)] "x" true = inr t
    /\ map fst (rows t)
       = [NaN; Str " 0 to < 10"; Str " 10 to < 20"; Str " 20 to < 30";
          Str " 30 to < 40"; Str " 40 to < 50"; Str " 50 to < 60";
          Str " 60 to < 70"; Str " 70 to < 80"; Str " 80 to < 90";
          Str " 90 to < 100"]
    /\ spec_bin_label 0 10 = "0 to <10"
    /\ spec_bin_label 90 100 = "90 to <100"
    /\ ~ In (Str (spec_bin_label 0 10)) (map fst (rows t))
    /\ ~ In (Str (spec_bin_label 90 100)) (map fst (rows t)).
Proof.
  eexists. split; [vm_compute; reflexivity|].
  split; [reflexivity|]. split; [reflexivity|]. split; [reflexivity|].
  split; simpl; intros H;
    repeat (destruct H as [H|H]; [discriminate H|]); exact H.
Qed.

(** ** The counts of the bins when no two labels are equal *)

Lemma list_sum_map_add {A : Type} (f g : A -> nat) (l : list A) :
  list_sum (map (fun i => f i + g i)%nat l)
  = (list_sum (map f l) + list_sum (map g l))%nat.
Proof. induction l as [|a l IH]; simpl; lia. Qed.

Lemma indicator_sum (x a n : nat) :
  list_sum (map (fun i => if Nat.eq_dec x i then 1 else 0)%nat (seq a n))
  = if ((a <=? x) && (x <? a + n))%nat then 1%nat else 0%nat.
Proof.
  revert a. induction n as [|n IH]; intros a; simpl.
  - destruct (a <=? x)%nat eqn:E1, (x <? a + 0)%nat eqn:E2; simpl; auto.
    apply Nat.leb_le in E1. apply Nat.ltb_lt in E2. lia.
  - rewrite IH.
    destruct (Nat.eq_dec x a) as [->|Hne].
    + replace (S a <=? a)%nat with false by (symmetry; apply Nat.leb_gt; lia).
      rewrite Nat.leb_refl. simpl.
      replace (a <? a + S n)%nat with true
        by (symmetry; apply Nat.ltb_lt; lia).
      reflexivity.
    + destruct (S a <=? x)%nat eqn:E1, (a <=? x)%nat eqn:E2,
        (x <? S a + n)%nat eqn:E3, (x <? a + S n)%nat eqn:E4; simpl; auto;
        rewrite ?Nat.leb_le, ?Nat.leb_gt, ?Nat.ltb_lt, ?Nat.ltb_ge in *; lia.
Qed.

(** Every index below [n] is counted in exactly one cell of [bincount]. *)
Lemma bincount_sum (indices : list nat) (n : nat) :
  Forall (fun x => x < n)%nat indices ->
  list_sum (bincount indices n) = length indices.
Proof.
  unfold bincount.
  induction 1 as [|x l Hx Hl IH]; simpl.
  - induction (seq 0 n) as [|a s IHs]; simpl; auto.
  - rewrite (map_ext _ (fun i => (if Nat.eq_dec x i then 1 else 0)
                                 + count_occ Nat.eq_dec l i)%nat).
    + rewrite list_sum_map_add, indicator_sum. simpl.
      replace (x <? n)%nat with true by (symmetry; now apply Nat.ltb_lt).
      simpl. f_equal. exact IH.
    + intros i. now destruct (Nat.eq_dec x i).
Qed.

(** Every value is assigned to exactly one of the [n] bins. *)
Lemma histogram_counts_sum (data : list Q) (n : nat) :
  (0 < n)%nat -> list_sum (fst (histogram data n)) = length data.
Proof.
  intros Hn. unfold histogram. destruct (outer_edges data) as [lo hi]. simpl.
  rewrite bincount_sum, length_map; [reflexivity|].
  apply Forall_forall. intros i Hi. apply in_map_iff in Hi.
  destruct Hi as (x & <- & _). unfold bin_index. lia.
Qed.

Lemma dict_set_fresh {V : Type} (k : string) (v : V) (d : dict V) :
  ~ In k (keys d) -> dict_set k v d = d ++ [(k, v)].
Proof.
  unfold keys. induction d as [|[k' v'] d IH]; simpl; [reflexivity|].
  intros H. destruct (String.eqb k' k) eqn:E.
  - apply String.eqb_eq in E. tauto.
  - rewrite IH; tauto.
Qed.

Lemma list_sum_values_app (d d' : dict nat) :
  list_sum (values (d ++ d')) = (list_sum (values d) + list_sum (values d'))%nat.
Proof. unfold values. now rewrite map_app, list_sum_app. Qed.

(** Without two equal labels the dictionary of bins keeps every count. *)
Lemma labelled_from_sum (edges : list Q) (freqs : list nat) :
  forall (idx : nat) (acc : dict nat),
    NoDup (keys acc ++ map (bin_label edges) (seq idx (length freqs))) ->
    list_sum (values (labelled_from edges idx freqs acc))
    = (list_sum (values acc) + list_sum freqs)%nat.
Proof.
  induction freqs as [|c freqs IH]; intros idx acc Hnd; simpl; [lia|].
  simpl in Hnd.
  assert (Hfresh : ~ In (bin_label edges idx) (keys acc)).
  { intros Hin. apply NoDup_remove_2 in Hnd. apply Hnd.
    apply in_or_app. now left. }
  rewrite dict_set_fresh by exact Hfresh.
  rewrite IH.
  - rewrite list_sum_values_app. simpl. lia.
  - unfold keys in *. rewrite map_app. simpl. rewrite <- app_assoc. simpl.
    exact Hnd.
Qed.

Lemma Q_of_nat_add (a b : nat) : Q_of_nat (a + b) == Q_of_nat a + Q_of_nat b.
Proof. unfold Q_of_nat. now rewrite Nat2Z.inj_add, inject_Z_plus. Qed.

Lemma sum_measures_counts (d : dict nat) :
  sum_measures (map (fun kv => (Str (fst kv), Q_of_nat (snd kv))) d)
  == Q_of_nat (list_sum (values d)).
Proof.
  unfold sum_measures, values.
  induction d as [|[k v] d IH]; simpl; [reflexivity|].
  now rewrite Q_of_nat_add, <- IH.
Qed.

Lemma missing_plus_present (vals : list (option Q)) :
  (isna_sum (Numeric vals) + length (present_values vals))%nat = length vals.
Proof.
  unfold isna_sum, present_values. simpl.
  induction vals as [|[x|] vals IH]; simpl; lia.
Qed.

(** When the ten labels are pairwise different, the counts of the bins and
    the missing count add up to the number of rows of the column. *)
Lemma frequency_bins_sum_with_distinct_labels (_df : DataFrame)
  (col : string) (vals : list (option Q)) :
  getitem _df col = inr (Numeric vals) ->
  NoDup (map (bin_label (snd (histogram (present_values vals) nbins)))
           (seq 0 nbins)) ->
  exists t,
    _generate_frequency_bins _df col false = inr t
    /\ sum_measures (rows t) == Q_of_nat (length vals).
Proof.
  intros Hget Hnd. unfold _generate_frequency_bins. rewrite Hget. simpl.
  fold (present_values vals).
  pose proof (histogram_counts_length (present_values vals) nbins) as Hlen.
  pose proof (histogram_counts_sum (present_values vals) nbins) as Hsum.
  destruct (histogram (present_values vals) nbins) as [freqs edges].
  simpl in *.
  eexists. split; [reflexivity|]. simpl.
  unfold sum_measures in *. simpl.
  pose proof (sum_measures_counts (labelled_from edges 0 freqs [])) as Hq.
  unfold sum_measures in Hq. rewrite Hq.
  rewrite labelled_from_sum by (simpl; now rewrite Hlen).
  simpl. rewrite Hsum by (unfold nbins; lia).
  rewrite <- Q_of_nat_add.
  fold (isna_sum (Numeric vals)).
  now rewrite missing_plus_present.
Qed.

(** The normalised table is the table of counts with every count divided by
    the sum of the counts. *)
Lemma frequency_bins_normalised (_df : DataFrame) (col : string)
  (traw : Subtable) :
  _generate_frequency_bins _df col false = inr traw ->
  exists tnorm,
    _generate_frequency_bins _df col true = inr tnorm
    /\ rows tnorm = divide_by_sum (rows traw).
Proof.
  unfold _generate_frequency_bins.
  destruct (getitem _df col) as [e|s]; simpl; [discriminate|].
  destruct (histogram_data s) as [e|data]; simpl; [discriminate|].
  destruct (histogram data nbins) as [freqs edges].
  intros [= <-]. eexists. split; reflexivity.
Qed.

(** ** The bins of the histogram

    The index that [bin_index] computes is the bin whose edges enclose the
    value: the bins are half-open, the last one is closed. *)

Lemma Qmin_list_le (xs : list Q) :
  forall x, Qmin_list x xs <= x /\ Forall (fun y => Qmin_list x xs <= y) xs.
Proof.
  unfold Qmin_list.
  induction xs as [|a xs IH]; intros x; simpl.
  - split; [apply Qle_refl|constructor].
  - destruct (IH (Qmin x a)) as [H1 H2].
    split; [|constructor].
    + eapply Qle_trans; [exact H1|apply Q.le_min_l].
    + eapply Qle_trans; [exact H1|apply Q.le_min_r].
    + exact H2.
Qed.

Lemma Qmax_list_ge (xs : list Q) :
  forall x, x <= Qmax_list x xs /\ Forall (fun y => y <= Qmax_list x xs) xs.
Proof.
  unfold Qmax_list.
  induction xs as [|a xs IH]; intros x; simpl.
  - split; [apply Qle_refl|constructor].
  - destruct (IH (Qmax x a)) as [H1 H2].
    split; [|constructor].
    + eapply Qle_trans; [apply Q.le_max_l|exact H1].
    + eapply Qle_trans; [apply Q.le_max_r|exact H1].
    + exact H2.
Qed.

Lemma outer_edges_bounds (data : list Q) :
  fst (outer_edges data) < snd (outer_edges data)
  /\ Forall (fun x => fst (outer_edges data) <= x
                      /\ x <= snd (outer_edges data)) data.
Proof.
  unfold outer_edges. destruct data as [|x xs]; simpl.
  - split; [reflexivity|constructor].
  - destruct (Qmin_list_le xs x) as [Hm1 Hm2].
    destruct (Qmax_list_ge xs x) as [HM1 HM2].
    assert (Hall : Forall (fun y => Qmin_list x xs <= y /\ y <= Qmax_list x xs)
                     (x :: xs)).
    { constructor; [now split|].
      rewrite Forall_forall in *. intros y Hy. split; auto. }
    destruct (Qeq_bool (Qmin_list x xs) (Qmax_list x xs)) eqn:E; simpl.
    + apply Qeq_bool_iff in E. split.
      * rewrite E. apply Qlt_trans with (Qmax_list x xs).
        -- rewrite Qlt_minus_iff. ring_simplify. reflexivity.
        -- rewrite Qlt_minus_iff. ring_simplify. reflexivity.
      * eapply Forall_impl; [|exact Hall]. simpl. intros y [H1 H2]. split.
        -- eapply Qle_trans; [|exact H1].
           rewrite Qle_minus_iff. ring_simplify. discriminate.
        -- eapply Qle_trans; [exact H2|].
           rewrite Qle_minus_iff. ring_simplify. discriminate.
    + split; [|exact Hall].
      assert (Hle : Qmin_list x xs <= Qmax_list x xs)
        by (eapply Qle_trans; [exact Hm1|exact HM1]).
      apply Qle_lt_or_eq in Hle. destruct Hle as [Hlt|Heq]; [exact Hlt|].
      apply Qeq_bool_iff in Heq. congruence.
Qed.

Lemma linspace_nth (lo hi : Q) (n k : nat) :
  (k <= n)%nat ->
  nth k (linspace lo hi n) 0 = lo + Q_of_nat k * ((hi - lo) / Q_of_nat n).
Proof.
  intros Hk. unfold linspace.
  set (f := fun i : nat => lo + Q_of_nat i * ((hi - lo) / Q_of_nat n)).
  rewrite (nth_indep _ 0 (f 0%nat))
    by (rewrite length_map, length_seq; lia).
  rewrite (map_nth f), seq_nth by lia. reflexivity.
Qed.

Lemma Q_of_nat_le (a b : nat) : (a <= b)%nat -> Q_of_nat a <= Q_of_nat b.
Proof.
  intros H. unfold Q_of_nat. rewrite <- Zle_Qle. lia.
Qed.

Lemma bin_index_within (lo hi x : Q) (n : nat) :
  lo < hi -> lo <= x -> x <= hi -> (0 < n)%nat ->
  let i := bin_index lo hi n x in
  let edges := linspace lo hi n in
  (i < n)%nat
  /\ nth i edges 0 <= x
  /\ x <= nth (S i) edges 0
  /\ ((S i < n)%nat -> x < nth (S i) edges 0).
Proof.
  intros Hlh Hlo Hhi Hn i edges.
  set (w := (hi - lo) / Q_of_nat n).
  set (y := (x - lo) / (hi - lo) * Q_of_nat n).
  assert (Hd : 0 < hi - lo) by (apply (proj1 (Qlt_minus_iff lo hi)), Hlh).
  assert (Hnq : 0 < Q_of_nat n).
  { unfold Q_of_nat. change 0 with (inject_Z 0). rewrite <- Zlt_Qlt. lia. }
  assert (Hw : 0 < w).
  { unfold w. apply Qlt_shift_div_l; [exact Hnq|]. now rewrite Qmult_0_l. }
  assert (Hyw : y * w == x - lo).
  { unfold y, w. field. split; intros H0.
    - rewrite H0 in Hnq. now apply Qlt_irrefl in Hnq.
    - rewrite H0 in Hd. now apply Qlt_irrefl in Hd. }
  assert (Hy0 : 0 <= y).
  { unfold y. apply Qmult_le_0_compat; [|now apply Qlt_le_weak].
    apply Qle_shift_div_l; [exact Hd|]. rewrite Qmult_0_l.
    apply (proj1 (Qle_minus_iff lo x)), Hlo. }
  assert (Hf0 : (0 <= Qfloor y)%Z).
  { change 0%Z with (Qfloor 0). now apply Qfloor_resp_le. }
  assert (Hi : i = Nat.min (n - 1) (Z.to_nat (Qfloor y))) by reflexivity.
  assert (Hiy : Q_of_nat i <= y).
  { apply Qle_trans with (inject_Z (Qfloor y)); [|apply Qfloor_le].
    unfold Q_of_nat. rewrite <- Zle_Qle. lia. }
  assert (Hedge : forall k, (k <= n)%nat ->
                            nth k edges 0 = lo + Q_of_nat k * w)
    by (intros k Hk; now apply linspace_nth).
  split; [lia|].
  rewrite !Hedge by lia.
  split; [|split].
  - apply Qle_trans with (lo + y * w).
    + apply Qplus_le_r. apply Qmult_le_compat_r; [exact Hiy|now apply Qlt_le_weak].
    + rewrite Hyw. ring_simplify. apply Qle_refl.
  - destruct (Nat.lt_ge_cases (S i) n) as [Hlt|Hge].
    + assert (Hif : i = Z.to_nat (Qfloor y)) by lia.
      apply Qle_trans with (lo + y * w);
        [rewrite Hyw; ring_simplify; apply Qle_refl|].
      apply Qplus_le_r. apply Qmult_le_compat_r; [|now apply Qlt_le_weak].
      apply Qlt_le_weak.
      apply Qlt_le_trans with (inject_Z (Qfloor y + 1)); [apply Qlt_floor|].
      unfold Q_of_nat. rewrite <- Zle_Qle. lia.
    + assert (Hin : S i = n) by lia. rewrite Hin. unfold w.
      apply Qle_trans with hi; [exact Hhi|].
      setoid_replace (lo + Q_of_nat n * ((hi - lo) / Q_of_nat n)) with hi;
        [apply Qle_refl|].
      field. intros H0. rewrite H0 in Hnq. now apply Qlt_irrefl in Hnq.
  - intros Hlt.
    assert (Hif : i = Z.to_nat (Qfloor y)) by lia.
    apply Qle_lt_trans with (lo + y * w);
      [rewrite Hyw; ring_simplify; apply Qle_refl|].
    apply Qplus_lt_r. apply Qmult_lt_compat_r; [exact Hw|].
    apply Qlt_le_trans with (inject_Z (Qfloor y + 1)); [apply Qlt_floor|].
    unfold Q_of_nat. rewrite <- Zle_Qle. lia.
Qed.

(** Every value of the data lies between the edges of the bin it is counted
    in, and below the upper edge but in the last bin. *)
Lemma histogram_value_in_its_bin (data : list Q) (x : Q) :
  In x data ->
  let lo := fst (outer_edges data) in
  let hi := snd (outer_edges data) in
  let i := bin_index lo hi nbins x in
  let edges := snd (histogram data nbins) in
  (i < nbins)%nat
  /\ nth i edges 0 <= x
  /\ x <= nth (S i) edges 0
  /\ ((S i < nbins)%nat -> x < nth (S i) edges 0).
Proof.
  intros Hx lo hi i edges.
  destruct (outer_edges_bounds data) as [Hlt Hall].
  rewrite Forall_forall in Hall. destruct (Hall x Hx) as [H1 H2].
  assert (He : edges = linspace lo hi nbins).
  { unfold edges, histogram, lo, hi. now destruct (outer_edges data). }
  rewrite He.
  apply bin_index_within; auto. unfold nbins. lia.
Qed.

(** * Further properties of the program *)

(** ** Exact value counts: totals and rows *)

Lemma sum_measures_perm (l l' : list (cell * Q)) :
  Permutation l l' -> sum_measures l == sum_measures l'.
Proof.
  unfold sum_measures.
  induction 1 as [|x l l' Hp IH|x y l|l l' l'' H1 IH1 H2 IH2]; simpl.
  - reflexivity.
  - now rewrite IH.
  - ring.
  - now rewrite IH1.
Qed.

Lemma sum_measures_scaled (f : nat -> Q) (t : Q) (counts : list (cell * nat)) :
  (forall n, f n == Q_of_nat n * t) ->
  sum_measures (map (fun r => (fst r, f (snd r))) counts)
  == Q_of_nat (list_sum (map snd counts)) * t.
Proof.
  intros Hf. unfold sum_measures.
  induction counts as [|[v n] counts IH]; simpl.
  - unfold Q_of_nat. simpl. ring.
  - rewrite IH, Hf, Q_of_nat_add. ring.
Qed.

Lemma Q_of_nat_pos (n : nat) : (0 < n)%nat -> 0 < Q_of_nat n.
Proof.
  intros H. unfold Q_of_nat. change 0 with (inject_Z 0).
  rewrite <- Zlt_Qlt. lia.
Qed.

(** The measures of an exact-count table add up to the number of rows of
    the column, missing values included; normalised, they add up to 1,
    unless the column has no row, in which case the table has none. *)
Theorem value_counts_table_total
  (s : Series) (col sort_by : string) (normalize : bool) :
  sum_measures (rows (value_counts_table s col sort_by normalize))
  == if normalize
     then (if (len s =? 0)%nat then 0 else 1)
     else Q_of_nat (len s).
Proof.
  assert (Hperm : Permutation (value_counts false normalize s)
                    (rows (value_counts_table s col sort_by normalize))).
  { unfold value_counts_table. simpl.
    destruct (String.eqb (lower sort_by) "index"); apply sort_values_perm. }
  rewrite <- (sum_measures_perm _ _ Hperm).
  unfold value_counts.
  pose proof (value_counts_raw_sum false (cells s)) as Hsum. simpl in Hsum.
  set (counts := value_counts_raw false (cells s)) in *.
  destruct normalize.
  - etransitivity.
    + apply (sum_measures_scaled
               (fun n => Q_of_nat n / Q_of_nat (list_sum (map snd counts)))
               (/ Q_of_nat (list_sum (map snd counts))) counts).
      intros n. reflexivity.
    + rewrite Hsum. fold (len s).
      destruct (len s =? 0)%nat eqn:E.
      * apply Nat.eqb_eq in E. rewrite E. reflexivity.
      * apply Nat.eqb_neq in E. apply Qmult_inv_r.
        intros H0.
        assert (Hp : 0 < Q_of_nat (len s)) by (apply Q_of_nat_pos; lia).
        rewrite H0 in Hp. now apply Qlt_irrefl in Hp.
  - etransitivity.
    + apply (sum_measures_scaled (fun n => Q_of_nat n) 1 counts).
      intros n. ring.
    + rewrite Hsum. fold (len s). ring.
Qed.

Lemma distinct_NoDup (l : list cell) :
  ForallOrdPairs (fun x y => cell_eqb x y = false) l -> NoDup l.
Proof.
  induction 1 as [|x l Hx Hl IH]; constructor; auto.
  rewrite Forall_forall in Hx. intros Hin.
  specialize (Hx x Hin). now rewrite cell_eqb_refl in Hx.
Qed.

(** Every value of the column has its row in the exact-count table, with
    the number of rows of the column that hold this value (or its fraction);
    every row is the row of a value of the column, and no two rows are rows
    of the same value. *)
Theorem value_counts_table_rows
  (s : Series) (col sort_by : string) (normalize : bool) :
  let t := value_counts_table s col sort_by normalize in
  (forall v, In v (cells s) ->
             exists u, cell_eqb u v = true
                       /\ In (u, measure_of normalize s (count_eq v (cells s)))
                            (rows t))
  /\ (forall u m, In (u, m) (rows t) ->
                  In u (cells s)
                  /\ m = measure_of normalize s (count_eq u (cells s)))
  /\ (forall r r', In r (rows t) -> In r' (rows t) ->
                   cell_eqb (fst r) (fst r') = true -> r = r').
Proof.
  cbv zeta. split; [|split].
  - intros v Hv. destruct (unique_complete v (cells s) Hv) as (u & Hu & Huv).
    exists u. split; [exact Huv|].
    rewrite value_counts_table_rows_In, value_counts_In.
    split; [exact Hu|]. now rewrite (count_eq_compat u v).
  - intros u m H.
    rewrite value_counts_table_rows_In, value_counts_In in H.
    destruct H as [Hu ->]. split; [now apply unique_In|reflexivity].
  - intros [u m] [u' m'] H H' Heq. simpl in Heq.
    rewrite value_counts_table_rows_In, value_counts_In in H, H'.
    destruct H as [Hu ->], H' as [Hu' ->].
    assert (u = u')
      by (apply (distinct_In_eq (unique (cells s))); auto using unique_distinct).
    now subst.
Qed.

Lemma value_counts_table_labels_NoDup
  (s : Series) (col sort_by : string) (normalize : bool) :
  NoDup (map fst (rows (value_counts_table s col sort_by normalize))).
Proof.
  assert (Hperm : Permutation (unique (cells s))
            (map fst (rows (value_counts_table s col sort_by normalize)))).
  { unfold value_counts_table, value_counts, value_counts_raw. simpl.
    eapply perm_trans.
    2:{ apply Permutation_map.
        destruct (String.eqb (lower sort_by) "index"); apply sort_values_perm. }
    rewrite map_map. simpl.
    eapply perm_trans; [|apply Permutation_map, sort_values_perm].
    rewrite map_map. simpl. rewrite map_id. apply Permutation_refl. }
  apply (Permutation_NoDup Hperm), distinct_NoDup, unique_distinct.
Qed.

(** With [sort_by] "index" the row of missing values, when there is one, is
    the last row of the exact-count table. *)
Theorem value_counts_table_missing_row_last
  (s : Series) (col sort_by : string) (normalize : bool)
  (pre post : list (cell * Q)) (m : Q) :
  lower sort_by = "index" ->
  rows (value_counts_table s col sort_by normalize) = pre ++ (NaN, m) :: post ->
  post = [].
Proof.
  intros Hidx Hrows.
  pose proof (value_counts_table_labels_NoDup s col sort_by normalize) as Hnd.
  assert (Hsorted : StronglySorted
                      (fun a b : cell * Q => cell_leb (fst a) (fst b) = true)
                      (rows (value_counts_table s col sort_by normalize))).
  { unfold value_counts_table. simpl. rewrite Hidx. simpl.
    apply sort_values_sorted.
    - intros x y. apply cell_leb_total.
    - intros x y z. apply cell_leb_trans. }
  rewrite Hrows in Hnd, Hsorted. clear Hrows.
  destruct post as [|[u m'] post]; [reflexivity|exfalso].
  assert (Hu : cell_leb NaN u = true).
  { clear Hnd. induction pre as [|p pre IH]; simpl in Hsorted.
    - inversion Hsorted as [|? ? _ Hall]; subst.
      inversion Hall as [|? ? Hh _]; subst. exact Hh.
    - inversion Hsorted; subst. now apply IH. }
  destruct u; try discriminate.
  rewrite map_app in Hnd. simpl in Hnd.
  apply NoDup_remove_2 in Hnd. apply Hnd.
  apply in_or_app. right. now left.
Qed.

(** The column [1, NaN, 2, NaN]: missing values come last. *)
Lemma value_counts_table_missing_row_last_witness :
  let s := Numeric [Some 1; None; Some 2; None] in
  lower "Index" = "index"
  /\ rows (value_counts_table s "a" "Index" false)
     = [(Num 1, 1); (Num 2, 1)] ++ (NaN, 2) :: []
  /\ @nil (cell * Q) = [].
Proof.
  split; [reflexivity|]. split; [reflexivity|].
  symmetry.
  apply (value_counts_table_missing_row_last
           (Numeric [Some 1; None; Some 2; None]) "a" "Index" false
           [(Num 1, 1); (Num 2, 1)] [] 2); reflexivity.
Defined.

(** ** The frequency binner: shape of the table, and what a label reports *)

Lemma dict_get_set_other {V : Type} (k k0 : string) (v : V) (d : dict V) :
  k0 <> k -> dict_get k0 (dict_set k v d) = dict_get k0 d.
Proof.
  intros Hne. induction d as [|[k' v'] d IH]; simpl.
  - destruct (String.eqb k k0) eqn:E; [|reflexivity].
    apply String.eqb_eq in E. congruence.
  - destruct (String.eqb k' k) eqn:E; simpl.
    + apply String.eqb_eq in E. subst k'.
      destruct (String.eqb k k0) eqn:E'; [|reflexivity].
      apply String.eqb_eq in E'. congruence.
    + now rewrite IH.
Qed.

Lemma dict_get_In_pair {V : Type} (k : string) (v : V) (d : dict V) :
  dict_get k d = Some v -> In (k, v) d.
Proof.
  induction d as [|[k' v'] d IH]; simpl; [discriminate|].
  destruct (String.eqb k' k) eqn:E.
  - apply String.eqb_eq in E. intros [= ->]. left. now subst.
  - intros H. right. now apply IH.
Qed.

Lemma dict_set_keys_NoDup {V : Type} (k : string) (v : V) (d : dict V) :
  NoDup (keys d) -> NoDup (keys (dict_set k v d)).
Proof.
  unfold keys. induction d as [|[k' v'] d IH]; simpl; intros Hnd.
  - constructor; [easy|constructor].
  - inversion Hnd as [|? ? Hnotin Hnd']; subst.
    destruct (String.eqb k' k) eqn:E; simpl; [now constructor|].
    constructor; [|now apply IH].
    intros Hin. apply (keys_dict_set k k' v d) in Hin.
    destruct Hin as [->|Hin]; [|now apply Hnotin].
    rewrite String.eqb_refl in E. discriminate.
Qed.

Lemma labelled_from_keys_NoDup (edges : list Q) (freqs : list nat) :
  forall (idx : nat) (acc : dict nat),
    NoDup (keys acc) -> NoDup (keys (labelled_from edges idx freqs acc)).
Proof.
  induction freqs as [|c freqs IH]; intros idx acc Hnd; simpl; [exact Hnd|].
  apply IH. now apply dict_set_keys_NoDup.
Qed.

Lemma labelled_from_get_other (edges : list Q) (freqs : list nat) (k : string) :
  forall (idx : nat) (acc : dict nat),
    (forall j, (j < length freqs)%nat -> bin_label edges (idx + j) <> k) ->
    dict_get k (labelled_from edges idx freqs acc) = dict_get k acc.
Proof.
  induction freqs as [|c freqs IH]; intros idx acc Hne; simpl; [reflexivity|].
  rewrite IH.
  - apply dict_get_set_other. intros ->.
    apply (Hne 0%nat); [simpl; lia|]. now rewrite Nat.add_0_r.
  - intros j Hj. rewrite Nat.add_succ_comm. apply Hne. simpl. lia.
Qed.

(** The count kept under a label is the count of the last bin that bears
    the label. *)
Lemma labelled_from_get_last (edges : list Q) (freqs : list nat) :
  forall (idx : nat) (acc : dict nat) (j : nat),
    (j < length freqs)%nat ->
    (forall j', (j < j' < length freqs)%nat ->
                bin_label edges (idx + j') <> bin_label edges (idx + j)) ->
    dict_get (bin_label edges (idx + j)) (labelled_from edges idx freqs acc)
    = Some (nth j freqs 0%nat).
Proof.
  induction freqs as [|c freqs IH]; intros idx acc j Hj Hlast; simpl in *;
    [lia|].
  destruct j as [|j].
  - rewrite labelled_from_get_other.
    + rewrite Nat.add_0_r. apply dict_get_set_same.
    + intros j' Hj'. rewrite Nat.add_succ_comm. apply Hlast. lia.
  - rewrite <- Nat.add_succ_comm. apply IH; [lia|].
    intros j' Hj'. rewrite !Nat.add_succ_comm. apply Hlast. lia.
Qed.

(** The table of the binner for a numeric column: the row of missing values
    comes first, whether or not a value is missing, and is the only row
    without a label; the rows of the bins follow, at least one and at most
    ten, and no two of them have the same label. *)
Theorem frequency_bins_shape
  (_df : DataFrame) (col : string) (normalize : bool)
  (vals : list (option Q)) :
  getitem _df col = inr (Numeric vals) ->
  exists t labels,
    _generate_frequency_bins _df col normalize = inr t
    /\ map fst (rows t) = NaN :: map Str labels
    /\ NoDup labels
    /\ (1 <= length labels <= nbins)%nat
    /\ (if normalize then True
        else exists bins,
            rows t = (NaN, Q_of_nat (isna_sum (Numeric vals))) :: bins).
Proof.
  intros Hget.
  destruct (frequency_bins_labels _df col normalize vals Hget)
    as (t & Ht & Hlabels).
  set (freqs := fst (histogram (present_values vals) nbins)) in *.
  set (edges := snd (histogram (present_values vals) nbins)) in *.
  pose proof (histogram_counts_length (present_values vals) nbins) as Hlen.
  fold freqs in Hlen.
  exists t, (keys (labelled_from edges 0 freqs [])).
  split; [exact Ht|]. split; [exact Hlabels|].
  assert (Hnd : NoDup (keys (labelled_from edges 0 freqs [])))
    by (apply labelled_from_keys_NoDup; constructor).
  split; [exact Hnd|]. split; [split|].
  - assert (Hin : In (bin_label edges 0) (keys (labelled_from edges 0 freqs []))).
    { apply labelled_from_keys. right. exists 0%nat.
      rewrite Hlen. split; [unfold nbins; lia|reflexivity]. }
    destruct (keys (labelled_from edges 0 freqs [])); [destruct Hin|simpl; lia].
  - replace nbins with (length (map (bin_label edges) (seq 0 nbins)))
      by (now rewrite length_map, length_seq).
    apply NoDup_incl_length; [exact Hnd|].
    intros k Hk. apply labelled_from_keys in Hk.
    destruct Hk as [[]|(j & Hj & ->)]. rewrite Hlen in Hj.
    apply in_map, in_seq. lia.
  - destruct normalize; [exact I|].
    revert Ht. unfold _generate_frequency_bins. rewrite Hget. simpl.
    destruct (histogram (present_values vals) nbins) as [fr ed].
    intros [= <-]. simpl. eexists. reflexivity.
Qed.

(** The table of a column of 15 distinct values from 0 to 100. *)
Lemma frequency_bins_shape_witness :
  let df := [("x", Numeric percent_values)] in
  getitem df "x" = inr (Numeric percent_values)
  /\ exists t labels,
      _generate_frequency_bins df "x" false = inr t
      /\ map fst (rows t) = NaN :: map Str labels
      /\ NoDup labels
      /\ (1 <= length labels <= nbins)%nat
      /\ exists bins,
          rows t = (NaN, Q_of_nat (isna_sum (Numeric percent_values))) :: bins.
Proof.
  split; [reflexivity|].
  exact (frequency_bins_shape [("x", Numeric percent_values)] "x" false
           percent_values eq_refl).
Defined.

(** The count of a bin is in the table, under the label of the bin, when no
    later bin has the same label: of the bins with one label, the table
    reports the last. *)
Theorem frequency_bins_reports_last_bin
  (_df : DataFrame) (col : string) (vals : list (option Q)) (idx : nat) :
  getitem _df col = inr (Numeric vals) ->
  (idx < nbins)%nat ->
  let freqs := fst (histogram (present_values vals) nbins) in
  let edges := snd (histogram (present_values vals) nbins) in
  (forall j, (idx < j < nbins)%nat ->
             bin_label edges j <> bin_label edges idx) ->
  exists t,
    _generate_frequency_bins _df col false = inr t
    /\ In (Str (bin_label edges idx), Q_of_nat (nth idx freqs 0%nat)) (rows t).
Proof.
  intros Hget Hidx freqs edges Hlast.
  pose proof (histogram_counts_length (present_values vals) nbins) as Hlen.
  fold freqs in Hlen.
  assert (Hd : dict_get (bin_label edges idx) (labelled_from edges 0 freqs [])
               = Some (nth idx freqs 0%nat)).
  { apply (labelled_from_get_last edges freqs 0 [] idx).
    - now rewrite Hlen.
    - intros j' Hj'. simpl. apply Hlast. now rewrite <- Hlen. }
  apply dict_get_In_pair in Hd.
  unfold _generate_frequency_bins. rewrite Hget. simpl.
  unfold freqs, edges in Hd.
  destruct (histogram (present_values vals) nbins) as [fr ed]. simpl in Hd.
  eexists. split; [reflexivity|]. simpl. right.
  apply in_map_iff. exists (bin_label ed idx, nth idx fr 0%nat). now split.
Qed.

(** The bin [[2, 2.5)] of the column [0, 0.5, ..., 5]: it shares its label
    with the bin before it, and no later bin has this label. *)
Lemma frequency_bins_reports_last_bin_witness :
  let df := [("x", halves)] in
  let freqs := fst (histogram (present_values (map Some halves_values)) nbins) in
  let edges := snd (histogram (present_values (map Some halves_values)) nbins) in
  getitem df "x" = inr (Numeric (map Some halves_values))
  /\ (4 < nbins)%nat
  /\ bin_label edges 3 = bin_label edges 4
  /\ (forall j, (4 < j < nbins)%nat -> bin_label edges j <> bin_label edges 4)
  /\ exists t,
      _generate_frequency_bins df "x" false = inr t
      /\ In (Str (bin_label edges 4), Q_of_nat (nth 4 freqs 0%nat)) (rows t).
Proof.
  assert (Hlater : forall j, (4 < j < nbins)%nat ->
            bin_label
              (snd (histogram (present_values (map Some halves_values)) nbins)) j
            <> bin_label
                 (snd (histogram (present_values (map Some halves_values)) nbins))
                 4).
  { unfold nbins. intros j Hj.
    do 10 (destruct j as [|j]; [try lia; vm_compute; discriminate|]). lia. }
  split; [reflexivity|]. split; [unfold nbins; lia|].
  split; [reflexivity|]. split; [exact Hlater|].
  apply (frequency_bins_reports_last_bin [("x", halves)] "x"
           (map Some halves_values) 4).
  - reflexivity.
  - unfold nbins. lia.
  - exact Hlater.
Defined.

Lemma sum_measures_divide_by_sum (rs : list (cell * Q)) :
  sum_measures (divide_by_sum rs) == sum_measures rs / sum_measures rs.
Proof.
  unfold divide_by_sum. fold (sum_measures rs).
  generalize (sum_measures rs) at 1 3 as total. intros total.
  unfold sum_measures.
  induction rs as [|[v x] rs IH]; simpl.
  - unfold Qdiv. ring.
  - rewrite IH. unfold Qdiv. ring.
Qed.

(** When the ten labels of a numeric column are pairwise different, the
    counts of the table and the missing count add up to the number of rows
    of the column, and the fractions of the normalised table add up to 1. *)
Theorem frequency_bins_totals_with_distinct_labels
  (_df : DataFrame) (col : string) (vals : list (option Q)) :
  getitem _df col = inr (Numeric vals) ->
  NoDup (map (bin_label (snd (histogram (present_values vals) nbins)))
           (seq 0 nbins)) ->
  exists traw tnorm,
    _generate_frequency_bins _df col false = inr traw
    /\ _generate_frequency_bins _df col true = inr tnorm
    /\ sum_measures (rows traw) == Q_of_nat (length vals)
    /\ sum_measures (rows tnorm)
       == if (length vals =? 0)%nat then 0 else 1.
Proof.
  intros Hget Hnd.
  destruct (frequency_bins_sum_with_distinct_labels _df col vals Hget Hnd)
    as (traw & Hraw & Hsum).
  destruct (frequency_bins_normalised _df col traw Hraw)
    as (tnorm & Hnorm & Hrows).
  exists traw, tnorm. repeat split; auto.
  rewrite Hrows, sum_measures_divide_by_sum, Hsum.
  destruct (length vals =? 0)%nat eqn:E.
  - apply Nat.eqb_eq in E. rewrite E. reflexivity.
  - apply Nat.eqb_neq in E. apply Qmult_inv_r. intros H0.
    assert (Hp : 0 < Q_of_nat (length vals)) by (apply Q_of_nat_pos; lia).
    rewrite H0 in Hp. now apply Qlt_irrefl in Hp.
Qed.

(** The ten labels of a column of 15 distinct values from 0 to 100 are
    pairwise different. *)
Lemma frequency_bins_totals_with_distinct_labels_witness :
  let df := [("x", Numeric percent_values)] in
  getitem df "x" = inr (Numeric percent_values)
  /\ NoDup (map (bin_label
                   (snd (histogram (present_values percent_values) nbins)))
              (seq 0 nbins))
  /\ exists traw tnorm,
      _generate_frequency_bins df "x" false = inr traw
      /\ _generate_frequency_bins df "x" true = inr tnorm
      /\ sum_measures (rows traw) == Q_of_nat (length percent_values)
      /\ sum_measures (rows tnorm)
         == if (length percent_values =? 0)%nat then 0 else 1.
Proof.
  assert (Hnd : NoDup (map (bin_label
                   (snd (histogram (present_values percent_values) nbins)))
              (seq 0 nbins))).
  { vm_compute.
    repeat (constructor; [simpl; intuition discriminate|]). constructor. }
  split; [reflexivity|]. split; [exact Hnd|].
  exact (frequency_bins_totals_with_distinct_labels
           [("x", Numeric percent_values)] "x" percent_values eq_refl Hnd).
Defined.

(** ** The classifier on text columns and on tables *)

Lemma dict_set_set {V : Type} (k : string) (v v' : V) (d : dict V) :
  dict_set k v (dict_set k v' d) = dict_set k v d.
Proof.
  induction d as [|[k0 v0] d IH]; simpl.
  - now rewrite String.eqb_refl.
  - destruct (String.eqb k0 k) eqn:E; simpl; rewrite E; [reflexivity|].
    now rewrite IH.
Qed.

(** What the classifier does to its dictionary when it returns: it stores a
    type tag for the column, and nothing else. *)
Lemma detect_col_sets (float_of_str : string -> option Q)
  (numeric_of_str : string -> option (option Q))
  (_df : DataFrame) (d d' : dict (option ColumnType)) (col : string) :
  detect_col float_of_str numeric_of_str _df d col = inr d' ->
  exists ty, d' = dict_set col (Some ty) d.
Proof.
  unfold detect_col.
  destruct (integers_check float_of_str _df col) as [e1|[|]]; simpl;
    try (intros [= <-]; now exists Tinteger).
  all: destruct (floats_check float_of_str _df col) as [e2|[|]]; simpl;
    try (intros [= <-]; exists Tfloat; now rewrite ?dict_set_set).
  all: destruct (_currency_cleaner _df col) as [e3|cleaned] eqn:Ec; simpl;
    try discriminate.
  all: destruct (to_numeric numeric_of_str cleaned) as [e4|parsed];
    try (intros [= <-]; exists Tcurrency; now rewrite ?dict_set_set).
  all: unfold _currency_cleaner in Ec.
  all: destruct (getitem _df col) as [e5|s]; simpl in *; [discriminate Ec|].
  all: intros [= <-]; exists Tstring; now rewrite ?dict_set_set.
Qed.

Lemma detect_loop_tags (float_of_str : string -> option Q)
  (numeric_of_str : string -> option (option Q))
  (_df : DataFrame) (cols : list string) :
  forall d d',
    detect_loop float_of_str numeric_of_str _df cols d = inr d' ->
    (forall c, In c cols \/ (exists ty, dict_get c d = Some (Some ty)) ->
               exists ty, dict_get c d' = Some (Some ty))
    /\ (forall c, In c (keys d') -> In c cols \/ In c (keys d)).
Proof.
  induction cols as [|col cols IH]; intros d d'; simpl.
  - intros [= <-]. split; [intros c [[]|H]; exact H|auto].
  - destruct (detect_col float_of_str numeric_of_str _df d col) as [e|d1] eqn:E;
      simpl; [discriminate|].
    intros Hloop. destruct (IH _ _ Hloop) as [H1 H2].
    destruct (detect_col_sets _ _ _ _ _ _ E) as (ty & ->).
    split.
    + intros c Hc. apply H1.
      destruct (string_dec c col) as [->|Hne].
      * right. exists ty. apply dict_get_set_same.
      * destruct Hc as [[Hc|Hc]|Hc]; [congruence|now left|right].
        now rewrite dict_get_set_other.
    + intros c Hc. destruct (H2 c Hc) as [H|H]; [now left; right|].
      apply keys_dict_set in H. destruct H as [->|H]; [now left; left|now right].
Qed.

(** When the classifier returns, its dictionary has an entry for exactly the
    columns of the table, and every entry is one of the four type tags: the
    tag of an unknown type is never what it returns. *)
Theorem _detect_col_dtypes_tags
  (float_of_str : string -> option Q)
  (numeric_of_str : string -> option (option Q)) (_df : DataFrame)
  (d : dict (option ColumnType)) :
  _detect_col_dtypes float_of_str numeric_of_str _df = inr d ->
  forall col,
    In col (column_names _df) <-> exists ty, dict_get col d = Some (Some ty).
Proof.
  intros H col. unfold _detect_col_dtypes in H.
  destruct (detect_loop_tags _ _ _ _ _ _ H) as [H1 H2].
  split.
  - intros Hc. apply H1. now left.
  - intros (ty & Hty). apply dict_get_Some_In in Hty.
    destruct (H2 col Hty) as [Hc|[]]. exact Hc.
Qed.

(** A table with a currency column and a column of words. *)
Lemma _detect_col_dtypes_tags_witness :
  let df := [("price", Object [Some "$1,000"; Some "€500"]);
             ("fruit", Object [Some "apple"; None])] in
  let d := [("price", Some Tcurrency); ("fruit", Some Tstring)] in
  detect df = inr d
  /\ forall col,
      In col (column_names df) <-> exists ty, dict_get col d = Some (Some ty).
Proof.
  split; [reflexivity|].
  exact (_detect_col_dtypes_tags decimal_of_str numeric_of_decimal
           [("price", Object [Some "$1,000"; Some "€500"]);
            ("fruit", Object [Some "apple"; None])]
           [("price", Some Tcurrency); ("fruit", Some Tstring)] eq_refl).
Defined.

Lemma detect_col_text_returns
  (float_of_str : string -> option Q)
  (numeric_of_str : string -> option (option Q)) (_df : DataFrame)
  (d : dict (option ColumnType)) (col : string) (vals : list (option string)) :
  getitem _df col = inr (Object vals) ->
  exists d', detect_col float_of_str numeric_of_str _df d col = inr d'.
Proof.
  intros Hget. unfold detect_col.
  destruct (integers_check float_of_str _df col) as [e1|[|]];
    try (eexists; reflexivity).
  all: destruct (floats_check float_of_str _df col) as [e2|[|]];
    try (eexists; reflexivity).
  all: unfold _currency_cleaner; rewrite Hget; simpl.
  all: match goal with
       | |- context [to_numeric ?f ?l] => destruct (to_numeric f l)
       end; eexists; reflexivity.
Qed.

Lemma text_table_getitem (df : DataFrame) (col : string) :
  text_table df -> In col (column_names df) ->
  exists vals, getitem df col = inr (Object vals).
Proof.
  unfold text_table, column_names, keys, getitem.
  induction 1 as [|[k s] df (vals & Hs) Hdf IH]; simpl; [easy|].
  intros Hin. simpl in Hs. subst s.
  destruct (String.eqb k col) eqn:E; [now exists vals|].
  apply IH. destruct Hin as [->|Hin]; [|exact Hin].
  rewrite String.eqb_refl in E. discriminate.
Qed.

(** On a table whose columns all hold text the classifier does not raise:
    it returns a dictionary of type tags. *)
Theorem _detect_col_dtypes_text_table
  (float_of_str : string -> option Q)
  (numeric_of_str : string -> option (option Q)) (_df : DataFrame) :
  text_table _df ->
  exists d, _detect_col_dtypes float_of_str numeric_of_str _df = inr d.
Proof.
  intros Htext. unfold _detect_col_dtypes.
  assert (H : forall cols d,
             incl cols (column_names _df) ->
             exists d', detect_loop float_of_str numeric_of_str _df cols d
                        = inr d').
  { induction cols as [|col cols IH]; intros d Hincl; simpl.
    - now exists d.
    - destruct (text_table_getitem _df col Htext) as (vals & Hget).
      { apply Hincl. now left. }
      destruct (detect_col_text_returns float_of_str numeric_of_str _df d col
                  vals Hget) as (d1 & Hd1).
      rewrite Hd1. simpl. apply IH.
      intros c Hc. apply Hincl. now right. }
  apply H. apply incl_refl.
Qed.

(** A table of two text columns. *)
Lemma _detect_col_dtypes_text_table_witness :
  let df := [("price", Object [Some "$1,000"; Some "abc"]);
             ("fruit", Object [Some "apple"; None])] in
  text_table df /\ exists d, detect df = inr d.
Proof.
  assert (Htext : text_table [("price", Object [Some "$1,000"; Some "abc"]);
                              ("fruit", Object [Some "apple"; None])]).
  { repeat constructor; simpl; eexists; reflexivity. }
  split; [exact Htext|].
  exact (_detect_col_dtypes_text_table decimal_of_str numeric_of_decimal _ Htext).
Defined.

(** ** The summariser and the caller's table *)

Lemma keys_dict_set_present {V : Type} (k : string) (v : V) (d : dict V) :
  In k (keys d) -> keys (dict_set k v d) = keys d.
Proof.
  unfold keys. induction d as [|[k' v'] d IH]; simpl; [easy|].
  intros Hin. destruct (String.eqb k' k) eqn:E; simpl; [reflexivity|].
  rewrite IH; [reflexivity|].
  destruct Hin as [->|Hin]; [|exact Hin].
  rewrite String.eqb_refl in E. discriminate.
Qed.

Lemma clean_currency_column_frame (numeric_of_str : string -> option (option Q))
  (ty : option ColumnType) (_df df' : DataFrame) (col : string) :
  clean_currency_column numeric_of_str ty _df col = inr df' ->
  column_names df' = column_names _df
  /\ (forall c, c <> col -> dict_get c df' = dict_get c _df)
  /\ (type_is ty Tcurrency = false -> df' = _df)
  /\ (forall vals, dict_get col _df = Some (Numeric vals) -> df' = _df).
Proof.
  unfold clean_currency_column.
  destruct (type_is ty Tcurrency).
  - unfold _currency_cleaner, getitem.
    destruct (dict_get col _df) as [s|] eqn:Hs; simpl; [|discriminate].
    destruct s as [vals|vals]; simpl; [discriminate|].
    destruct (to_numeric _ _) as [e|parsed]; simpl; [discriminate|].
    intros [= <-]. unfold setitem, column_names.
    split; [|split; [|split]].
    + apply keys_dict_set_present. now apply dict_get_Some_In with (Object vals).
    + intros c Hc. now apply dict_get_set_other.
    + discriminate.
    + discriminate.
  - intros [= <-]. auto.
Qed.

Lemma count_distinct_col_frame (numeric_of_str : string -> option (option Q))
  (ty : option ColumnType) (_df : DataFrame) (col sort_by : string)
  (normalize : bool) (r : DataFrame * Subtable) :
  count_distinct_col numeric_of_str ty _df col sort_by normalize = inr r ->
  column_names (fst r) = column_names _df
  /\ (forall c, c <> col -> dict_get c (fst r) = dict_get c _df)
  /\ (forall vals, dict_get col _df = Some (Numeric vals) -> fst r = _df).
Proof.
  unfold count_distinct_col.
  destruct (clean_currency_column numeric_of_str ty _df col) as [e|df'] eqn:E;
    simpl; [discriminate|].
  destruct (clean_currency_column_frame _ _ _ _ _ E) as (H1 & H2 & _ & H4).
  destruct (getitem df' col) as [e|s]; simpl; [discriminate|].
  destruct (low_cardinality_or_string ty s).
  - intros [= <-]. simpl. auto.
  - destruct (_generate_frequency_bins df' col normalize) as [e|t]; simpl;
      [discriminate|].
    intros [= <-]. simpl. auto.
Qed.

Lemma count_distinct_loop_frame (numeric_of_str : string -> option (option Q))
  (col_types : dict (option ColumnType)) (sort_by : string)
  (normalize : bool) (cols : list string) :
  forall st st',
    count_distinct_loop numeric_of_str col_types cols sort_by normalize st
    = inr st' ->
    column_names (fst st') = column_names (fst st)
    /\ (forall c vals, dict_get c (fst st) = Some (Numeric vals) ->
                       dict_get c (fst st') = Some (Numeric vals))
    /\ (forall c, ~ In c cols -> dict_get c (fst st') = dict_get c (fst st)).
Proof.
  induction cols as [|col cols IH]; intros st st'; simpl.
  - intros [= <-]. auto.
  - destruct (dict_get col col_types) as [ty|]; simpl; [|discriminate].
    destruct (count_distinct_col numeric_of_str ty (fst st) col sort_by
                normalize) as [e|r] eqn:E; simpl; [discriminate|].
    intros Hloop.
    destruct (count_distinct_col_frame _ _ _ _ _ _ _ E) as (H1 & H2 & H3).
    destruct (IH _ _ Hloop) as (I1 & I2 & I3). simpl in *.
    split; [congruence|]. split.
    + intros c vals Hc. apply I2.
      destruct (string_dec c col) as [->|Hne].
      * now rewrite (H3 vals Hc).
      * now rewrite H2.
    + intros c Hc. rewrite I3 by tauto. apply H2. intros ->. tauto.
Qed.

(** The summariser leaves the caller's table with the columns it had, in
    their order, and never changes a numeric column: only a text column that
    is typed currency is replaced. *)
Theorem _count_distinct_excel_keeps_numeric_columns
  (float_of_str : string -> option Q)
  (numeric_of_str : string -> option (option Q)) (_df df' : DataFrame)
  (out : dict Subtable) (sort_by : string) (normalize : bool) :
  _count_distinct_excel float_of_str numeric_of_str _df sort_by normalize
  = inr (df', out) ->
  column_names df' = column_names _df
  /\ forall col vals,
      getitem _df col = inr (Numeric vals) ->
      getitem df' col = inr (Numeric vals).
Proof.
  unfold _count_distinct_excel.
  destruct (_detect_col_dtypes float_of_str numeric_of_str _df)
    as [e|col_types]; simpl; [discriminate|].
  intros H. destruct (count_distinct_loop_frame _ _ _ _ _ _ _ H) as (H1 & H2 & _).
  simpl in *. split; [exact H1|].
  intros col vals. unfold getitem.
  destruct (dict_get col _df) as [s|] eqn:E; [|discriminate].
  intros [= ->]. now rewrite (H2 col vals E).
Qed.

Lemma clean_currency_column_cases (numeric_of_str : string -> option (option Q))
  (ty : option ColumnType) (_df df' : DataFrame) (col : string) :
  clean_currency_column numeric_of_str ty _df col = inr df' ->
  df' = _df
  \/ exists cleaned parsed,
      _currency_cleaner _df col = inr cleaned
      /\ to_numeric numeric_of_str cleaned = inr parsed
      /\ dict_get col df' = Some (Numeric parsed).
Proof.
  unfold clean_currency_column.
  destruct (type_is ty Tcurrency); [|intros [= <-]; now left].
  destruct (_currency_cleaner _df col) as [e|cleaned]; simpl; [discriminate|].
  destruct (to_numeric numeric_of_str cleaned) as [e|parsed] eqn:E; simpl;
    [discriminate|].
  intros [= <-]. right. exists cleaned, parsed.
  repeat split; auto. apply dict_get_set_same.
Qed.

Lemma _currency_cleaner_depends_on_column (df1 df2 : DataFrame) (col : string) :
  dict_get col df1 = dict_get col df2 ->
  _currency_cleaner df1 col = _currency_cleaner df2 col.
Proof. intros H. unfold _currency_cleaner, getitem. now rewrite H. Qed.

Lemma count_distinct_loop_columns (numeric_of_str : string -> option (option Q))
  (col_types : dict (option ColumnType)) (sort_by : string)
  (normalize : bool) (cols : list string) :
  forall st st',
    count_distinct_loop numeric_of_str col_types cols sort_by normalize st
    = inr st' ->
    forall c s,
      dict_get c (fst st) = Some s ->
      dict_get c (fst st') = Some s
      \/ exists cleaned parsed,
          _currency_cleaner (fst st) c = inr cleaned
          /\ to_numeric numeric_of_str cleaned = inr parsed
          /\ dict_get c (fst st') = Some (Numeric parsed).
Proof.
  induction cols as [|col cols IH]; intros st st'; simpl.
  - intros [= <-] c s Hs. now left.
  - destruct (dict_get col col_types) as [ty|]; simpl; [|discriminate].
    destruct (count_distinct_col numeric_of_str ty (fst st) col sort_by
                normalize) as [e|r] eqn:E; simpl; [discriminate|].
    intros Hloop c s Hs.
    pose proof (count_distinct_col_frame _ _ _ _ _ _ _ E) as (_ & Hother & _).
    destruct (string_dec c col) as [->|Hne].
    + assert (Hcol : fst r = fst st
                     \/ exists cleaned parsed,
                         _currency_cleaner (fst st) col = inr cleaned
                         /\ to_numeric numeric_of_str cleaned = inr parsed
                         /\ dict_get col (fst r) = Some (Numeric parsed)).
      { revert E. unfold count_distinct_col.
        destruct (clean_currency_column numeric_of_str ty (fst st) col)
          as [e|df1] eqn:Ec; simpl; [discriminate|].
        apply clean_currency_column_cases in Ec.
        destruct (getitem df1 col) as [e|s1]; simpl; [discriminate|].
        destruct (low_cardinality_or_string ty s1).
        - intros [= <-]. exact Ec.
        - destruct (_generate_frequency_bins df1 col normalize) as [e|t];
            simpl; [discriminate|]. intros [= <-]. exact Ec. }
      destruct Hcol as [Hsame|(cleaned & parsed & Hc & Hp & Hr)].
      * destruct (IH _ _ Hloop col s) as [H|(cl & pa & H1 & H2 & H3)].
        -- simpl. now rewrite Hsame.
        -- now left.
        -- right. exists cl, pa. simpl in H1. rewrite Hsame in H1. auto.
      * right. exists cleaned, parsed. repeat split; auto.
        destruct (count_distinct_loop_frame _ _ _ _ _ _ _ Hloop) as (_ & Hnum & _).
        now apply Hnum.
    + destruct (IH _ _ Hloop c s) as [H|(cl & pa & H1 & H2 & H3)].
      * simpl. now rewrite Hother.
      * now left.
      * right. exists cl, pa. repeat split; auto.
        rewrite <- H1. apply _currency_cleaner_depends_on_column.
        simpl. now rewrite Hother.
Qed.

(** After the summariser every column of the caller's table is what it was,
    or, for a text column, the numbers that its cleaned values parse to. *)
Theorem _count_distinct_excel_columns_after
  (float_of_str : string -> option Q)
  (numeric_of_str : string -> option (option Q)) (_df df' : DataFrame)
  (out : dict Subtable) (sort_by : string) (normalize : bool)
  (col : string) (s : Series) :
  _count_distinct_excel float_of_str numeric_of_str _df sort_by normalize
  = inr (df', out) ->
  getitem _df col = inr s ->
  getitem df' col = inr s
  \/ exists cleaned parsed,
      _currency_cleaner _df col = inr cleaned
      /\ to_numeric numeric_of_str cleaned = inr parsed
      /\ getitem df' col = inr (Numeric parsed).
Proof.
  unfold _count_distinct_excel.
  destruct (_detect_col_dtypes float_of_str numeric_of_str _df)
    as [e|col_types]; simpl; [discriminate|].
  intros H Hget.
  assert (Hs : dict_get col _df = Some s).
  { unfold getitem in Hget. destruct (dict_get col _df); [|discriminate].
    now injection Hget as ->. }
  destruct (count_distinct_loop_columns _ _ _ _ _ _ _ H col s Hs)
    as [H1|(cleaned & parsed & H1 & H2 & H3)]; simpl in *.
  - left. unfold getitem. now rewrite H1.
  - right. exists cleaned, parsed. repeat split; auto.
    unfold getitem. now rewrite H3.
Qed.

(** A table with a currency column and a numeric column: the currency
    column is replaced by its numbers. *)
Lemma _count_distinct_excel_columns_after_witness :
  let df := [("price", Object [Some "$1,000"; Some "€500"]);
             ("n", Numeric [Some 1; Some 2])] in
  exists df' out,
    profile df "index" false = inr (df', out)
    /\ getitem df "price" = inr (Object [Some "$1,000"; Some "€500"])
    /\ getitem df' "price" = inr (Numeric [Some 1000; Some 500])
    /\ (getitem df' "price" = inr (Object [Some "$1,000"; Some "€500"])
        \/ exists cleaned parsed,
            _currency_cleaner df "price" = inr cleaned
            /\ to_numeric numeric_of_decimal cleaned = inr parsed
            /\ getitem df' "price" = inr (Numeric parsed)).
Proof.
  eexists. eexists.
  match goal with
  | |- ?P /\ _ => assert (Hrun : P) by (vm_compute; reflexivity)
  end.
  split; [exact Hrun|]. split; [reflexivity|]. split; [reflexivity|].
  exact (_count_distinct_excel_columns_after decimal_of_str numeric_of_decimal
           _ _ _ _ _ "price" _ Hrun eq_refl).
Defined.

(** The same table: the names and the numeric column are kept. *)
Lemma _count_distinct_excel_keeps_numeric_columns_witness :
  let df := [("price", Object [Some "$1,000"; Some "€500"]);
             ("n", Numeric [Some 1; Some 2])] in
  exists df' out,
    profile df "index" false = inr (df', out)
    /\ column_names df' = column_names df
    /\ forall col vals,
        getitem df col = inr (Numeric vals) ->
        getitem df' col = inr (Numeric vals).
Proof.
  eexists. eexists.
  match goal with
  | |- ?P /\ _ => assert (Hrun : P) by (vm_compute; reflexivity)
  end.
  split; [exact Hrun|].
  exact (_count_distinct_excel_keeps_numeric_columns decimal_of_str
           numeric_of_decimal _ _ _ _ _ Hrun).
Defined.

(** ** The order of the summaries, and the spreadsheet *)

Lemma count_distinct_loop_order (numeric_of_str : string -> option (option Q))
  (col_types : dict (option ColumnType)) (sort_by : string)
  (normalize : bool) (cols : list string) :
  forall st st',
    count_distinct_loop numeric_of_str col_types cols sort_by normalize st
    = inr st' ->
    NoDup (keys (snd st) ++ cols) ->
    keys (snd st') = keys (snd st) ++ cols.
Proof.
  induction cols as [|col cols IH]; intros st st'; simpl.
  - intros [= <-] _. now rewrite app_nil_r.
  - destruct (dict_get col col_types) as [ty|]; simpl; [|discriminate].
    destruct (count_distinct_col numeric_of_str ty (fst st) col sort_by
                normalize) as [e|r]; simpl; [discriminate|].
    intros Hloop Hnd.
    assert (Hfresh : ~ In col (keys (snd st))).
    { intros Hin. apply NoDup_remove_2 in Hnd. apply Hnd.
      apply in_or_app. now left. }
    rewrite (IH _ _ Hloop); simpl; rewrite (dict_set_fresh _ _ _ Hfresh);
      unfold keys; rewrite map_app; simpl; rewrite <- app_assoc; simpl;
      [reflexivity|exact Hnd].
Qed.

(** When the names of the columns are pairwise different, the dictionary of
    the summariser lists the columns in the order of the table. *)
Theorem _count_distinct_excel_order
  (float_of_str : string -> option Q)
  (numeric_of_str : string -> option (option Q)) (_df df' : DataFrame)
  (out : dict Subtable) (sort_by : string) (normalize : bool) :
  _count_distinct_excel float_of_str numeric_of_str _df sort_by normalize
  = inr (df', out) ->
  NoDup (column_names _df) ->
  keys out = column_names _df.
Proof.
  unfold _count_distinct_excel.
  destruct (_detect_col_dtypes float_of_str numeric_of_str _df)
    as [e|col_types]; simpl; [discriminate|].
  intros H Hnd.
  apply (count_distinct_loop_order _ _ _ _ _ _ _ H). exact Hnd.
Qed.

(** A table of three columns. *)
Lemma _count_distinct_excel_order_witness :
  let df := [("price", Object [Some "$1,000"; Some "€500"]);
             ("n", Numeric [Some 1; Some 2]);
             ("fruit", Object [Some "apple"; None])] in
  exists df' out,
    profile df "value" true = inr (df', out)
    /\ NoDup (column_names df)
    /\ keys out = ["price"; "n"; "fruit"].
Proof.
  assert (Hnd : NoDup ["price"; "n"; "fruit"]).
  { repeat (constructor; [simpl; intuition discriminate|]). constructor. }
  eexists. eexists.
  match goal with
  | |- ?P /\ _ => assert (Hrun : P) by (vm_compute; reflexivity)
  end.
  split; [exact Hrun|]. split; [exact Hnd|].
  exact (_count_distinct_excel_order decimal_of_str numeric_of_decimal _ _ _ _ _
           Hrun Hnd).
Defined.

(** ** The currency cleaner *)

Lemma _currency_cleaner_text (_df : DataFrame) (col : string)
  (vals : list (option string)) :
  getitem _df col = inr (Object vals) ->
  _currency_cleaner _df col = inr (map (option_map clean_text) vals).
Proof.
  intros Hget. unfold _currency_cleaner. rewrite Hget. simpl.
  unfold ret, str_replace_empty. f_equal. rewrite !map_map.
  apply map_ext. now intros [t|].
Qed.

Lemma remove_from_has_char (pat : string) (c : ascii) (s : string) :
  forall skip, has_char c (remove_from pat skip s) = true ->
               has_char c s = true.
Proof.
  induction s as [|a s IH]; intros skip; simpl; [easy|].
  destruct skip as [|k].
  - destruct pat as [|p0 pat'].
    + simpl. destruct (Ascii.eqb a c); simpl; [easy|]. apply IH.
    + destruct (startswith (String p0 pat') (String a s)).
      * intros H. apply IH in H. rewrite H. apply orb_true_r.
      * simpl. destruct (Ascii.eqb a c); simpl; [easy|]. apply IH.
  - intros H. apply IH in H. rewrite H. apply orb_true_r.
Qed.

Lemma str_remove_has_char (pat : string) (c : ascii) (s : string) :
  has_char c s = false -> has_char c (str_remove pat s) = false.
Proof.
  intros H. destruct (has_char c (str_remove pat s)) eqn:E; [|reflexivity].
  apply remove_from_has_char in E. congruence.
Qed.

Lemma str_remove_char (c : ascii) (s : string) :
  has_char c (str_remove (String c EmptyString) s) = false.
Proof.
  unfold str_remove. induction s as [|a s IH]; simpl; [reflexivity|].
  rewrite Ascii.eqb_sym.
  destruct (Ascii.eqb a c) eqn:E; simpl; [exact IH|].
  now rewrite E, IH.
Qed.

(** The cleaner keeps the rows of a text column, and no cleaned value holds
    a dollar sign or a comma. *)
Theorem _currency_cleaner_removes_dollar_and_comma
  (_df : DataFrame) (col : string) (cleaned : list (option string)) :
  _currency_cleaner _df col = inr cleaned ->
  (exists s, getitem _df col = inr s /\ length cleaned = len s)
  /\ forall t, In (Some t) cleaned ->
               has_char "$" t = false /\ has_char "," t = false.
Proof.
  unfold _currency_cleaner.
  destruct (getitem _df col) as [e|[vals|vals]] eqn:Hget; simpl;
    try discriminate.
  intros H. pose proof (_currency_cleaner_text _df col vals Hget) as Hc.
  unfold _currency_cleaner in Hc. rewrite Hget in Hc. simpl in Hc.
  rewrite Hc in H. injection H as <-.
  split.
  - exists (Object vals). split; [reflexivity|].
    unfold len. simpl. now rewrite !length_map.
  - intros t Ht. apply in_map_iff in Ht.
    destruct Ht as ([u|] & Hu & _); [|discriminate].
    simpl in Hu. injection Hu as Hu. subst t. unfold clean_text. split.
    + do 9 apply str_remove_has_char. apply str_remove_char.
    + apply str_remove_char.
Qed.

(** The column ["$1,000", missing, "USD 2,5$"]. *)
Lemma _currency_cleaner_removes_dollar_and_comma_witness :
  let df := [("p", Object [Some "$1,000"; None; Some "USD 2,5$"])] in
  _currency_cleaner df "p" = inr [Some "1000"; None; Some " 25"]
  /\ (exists s, getitem df "p" = inr s /\ length [Some "1000"; None; Some " 25"] = len s)
  /\ forall t, In (Some t) [Some "1000"; None; Some " 25"] ->
               has_char "$" t = false /\ has_char "," t = false.
Proof.
  split; [reflexivity|].
  exact (_currency_cleaner_removes_dollar_and_comma
           [("p", Object [Some "$1,000"; None; Some "USD 2,5$"])] "p"
           [Some "1000"; None; Some " 25"] eq_refl).
Defined.

Lemma str_remove_no_first (p0 : ascii) (pat' s : string) :
  has_char p0 s = false ->
  forall t, str_remove (String p0 pat') (s ++ t)
            = (s ++ str_remove (String p0 pat') t)%string.
Proof.
  unfold str_remove. intros Hs t.
  induction s as [|a s IH]; [reflexivity|].
  simpl in Hs. apply orb_false_iff in Hs. destruct Hs as [Ha Hs].
  cbn [append remove_from startswith].
  rewrite Ascii.eqb_sym, Ha. cbn [andb]. now rewrite IH.
Qed.

Lemma str_remove_no_first_id (p0 : ascii) (pat' s : string) :
  has_char p0 s = false -> str_remove (String p0 pat') s = s.
Proof.
  intros Hs. pose proof (str_remove_no_first p0 pat' s Hs "") as H.
  assert (Hnil : forall u : string, (u ++ "")%string = u)
    by (induction u as [|x u IHu]; simpl; congruence).
  rewrite Hnil in H. rewrite H. unfold str_remove. simpl. apply Hnil.
Qed.

Lemma plain_text_has_char (c : ascii) (s : string) :
  plain_char c = false -> plain_text s = true -> has_char c s = false.
Proof.
  intros Hc. induction s as [|a s IH]; simpl; [reflexivity|].
  intros H. apply andb_true_iff in H. destruct H as [Ha Hs].
  rewrite (IH Hs), orb_false_r.
  destruct (Ascii.eqb a c) eqn:E; [|reflexivity].
  apply Ascii.eqb_eq in E. congruence.
Qed.

(** A text value made of digits, signs and points only is left as it is by
    the cleaner: on a column of such values the cleaner is the identity. *)
Theorem _currency_cleaner_keeps_plain_numbers
  (_df : DataFrame) (col : string) (vals : list (option string)) :
  getitem _df col = inr (Object vals) ->
  Forall (fun v => match v with
                   | Some t => plain_text t = true
                   | None => True
                   end) vals ->
  _currency_cleaner _df col = inr vals.
Proof.
  intros Hget Hplain. rewrite (_currency_cleaner_text _df col vals Hget).
  f_equal. clear Hget.
  induction Hplain as [|v vals Hv Hvals IH]; simpl; [reflexivity|].
  rewrite IH. f_equal. destruct v as [t|]; [|reflexivity]. simpl. f_equal.
  unfold clean_text.
  repeat (rewrite (str_remove_no_first_id _ _ t)
            by (apply plain_text_has_char; [reflexivity|exact Hv])).
  reflexivity.
Qed.

(** The column ["-12.50", missing, "1000"]. *)
Lemma _currency_cleaner_keeps_plain_numbers_witness :
  let df := [("p", Object [Some "-12.50"; None; Some "1000"])] in
  getitem df "p" = inr (Object [Some "-12.50"; None; Some "1000"])
  /\ Forall (fun v => match v with
                      | Some t => plain_text t = true
                      | None => True
                      end) [Some "-12.50"; None; Some "1000"]
  /\ _currency_cleaner df "p" = inr [Some "-12.50"; None; Some "1000"].
Proof.
  assert (Hplain : Forall (fun v => match v with
                      | Some t => plain_text t = true
                      | None => True
                      end) [Some "-12.50"; None; Some "1000"])
    by (repeat constructor).
  split; [reflexivity|]. split; [exact Hplain|].
  exact (_currency_cleaner_keeps_plain_numbers
           [("p", Object [Some "-12.50"; None; Some "1000"])] "p"
           [Some "-12.50"; None; Some "1000"] eq_refl Hplain).
Defined.

(** ** Loading the input and naming the output *)

Lemma startswith_prefix (p q s : string) :
  startswith (p ++ q) s = true -> startswith p s = true.
Proof.
  revert s. induction p as [|a p IH]; intros s; simpl; [reflexivity|].
  destruct s as [|b s]; [discriminate|].
  intros H. apply andb_true_iff in H. destruct H as [Hab H].
  now rewrite Hab, (IH s H).
Qed.

Lemma contains_prefix (p q s : string) :
  contains (p ++ q) s = true -> contains p s = true.
Proof.
  induction s as [|b s IH]; simpl.
  - rewrite !orb_false_r. apply startswith_prefix.
  - intros H. apply orb_true_iff in H. destruct H as [H|H].
    + apply startswith_prefix in H. simpl in H. now rewrite H.
    + rewrite (IH H). apply orb_true_r.
Qed.

(** The loader returns a table only from one of three readers, chosen by
    the first of [".csv"], [".xls"] and [".tsv"] that occurs somewhere in
    the name: the table of that reader is what it returns. *)
Theorem _load_data_from_file_returns
  (read_csv read_excel : string -> result DataFrame)
  (read_table : string -> string -> result DataFrame)
  (filename : string) (df : DataFrame) :
  _load_data_from_file read_csv read_excel read_table filename = inr df ->
  (contains ".csv" filename = true /\ read_csv filename = inr df)
  \/ (contains ".csv" filename = false
      /\ contains ".xls" filename = true
      /\ read_excel filename = inr df)
  \/ (contains ".csv" filename = false
      /\ contains ".xls" filename = false
      /\ contains ".tsv" filename = true
      /\ read_table filename tab = inr df).
Proof.
  unfold _load_data_from_file.
  destruct (contains ".csv" filename); [now left|].
  destruct (contains ".xlsx" filename) eqn:Ex.
  - apply (contains_prefix ".xls" "x") in Ex. rewrite Ex. simpl.
    right. now left.
  - simpl. destruct (contains ".xls" filename); [right; now left|].
    destruct (contains ".tsv" filename); [right; right; auto|].
    destruct (contains ".txt" filename).
    + destruct (read_table filename tab); [destruct (read_table filename ",")|];
        discriminate.
    + destruct (read_csv (filename ++ ".csv")%string);
        [destruct (read_excel (filename ++ ".xlsx")%string)|]; discriminate.
Qed.

(** A name with both [".csv"] and [".xlsx"] in it goes to the reader of
    delimited text. *)
Lemma _load_data_from_file_returns_witness :
  let read_csv := fun _ : string => inr [("a", Numeric [Some 1])] in
  let read_excel := fun _ : string => inr [("b", Numeric [Some 2])] in
  let read_table := fun _ _ : string => inr [("c", Numeric [Some 3])] in
  _load_data_from_file read_csv read_excel read_table "sales.csv.xlsx"
  = inr [("a", Numeric [Some 1])]
  /\ ((contains ".csv" "sales.csv.xlsx" = true
       /\ read_csv "sales.csv.xlsx" = inr [("a", Numeric [Some 1])])
      \/ (contains ".csv" "sales.csv.xlsx" = false
          /\ contains ".xls" "sales.csv.xlsx" = true
          /\ read_excel "sales.csv.xlsx" = inr [("a", Numeric [Some 1])])
      \/ (contains ".csv" "sales.csv.xlsx" = false
          /\ contains ".xls" "sales.csv.xlsx" = false
          /\ contains ".tsv" "sales.csv.xlsx" = true
          /\ read_table "sales.csv.xlsx" tab = inr [("a", Numeric [Some 1])])).
Proof.
  split; [reflexivity|].
  exact (_load_data_from_file_returns
           (fun _ => inr [("a", Numeric [Some 1])])
           (fun _ => inr [("b", Numeric [Some 2])])
           (fun _ _ => inr [("c", Numeric [Some 3])])
           "sales.csv.xlsx" [("a", Numeric [Some 1])] eq_refl).
Defined.

(** For a name without [".csv"], [".xls"] and [".tsv"] the loader raises,
    whatever the readers do: [RuntimeError] when the name has [".txt"] in
    it, [ValueError] otherwise.  So does [run_field_profiling], which then
    writes nothing. *)
Theorem _load_data_from_file_txt_or_no_extension_raises
  (read_csv read_excel : string -> result DataFrame)
  (read_table : string -> string -> result DataFrame)
  (float_of_str : string -> option Q)
  (numeric_of_str : string -> option (option Q))
  (filename sort_by : string) (normalize : bool) :
  contains ".csv" filename = false ->
  contains ".xls" filename = false ->
  contains ".tsv" filename = false ->
  let e :=
    if contains ".txt" filename
    then Raise "RuntimeError" "Could not detect correct delimiter for .txt file"
    else Raise "ValueError"
           "File name must include file type extension (eg .xlsx/.csv)" in
  _load_data_from_file read_csv read_excel read_table filename = inl e
  /\ run_field_profiling read_csv read_excel read_table float_of_str
       numeric_of_str filename sort_by normalize = inl e.
Proof.
  intros Hcsv Hxls Htsv e.
  assert (Hxlsx : contains ".xlsx" filename = false).
  { destruct (contains ".xlsx" filename) eqn:E; [|reflexivity].
    apply (contains_prefix ".xls" "x") in E. congruence. }
  assert (Hload : _load_data_from_file read_csv read_excel read_table filename
                  = inl e).
  { unfold _load_data_from_file, e.
    rewrite Hcsv, Hxlsx, Hxls, Htsv. simpl.
    destruct (contains ".txt" filename).
    - destruct (read_table filename tab); [destruct (read_table filename ",")|];
        reflexivity.
    - destruct (read_csv (filename ++ ".csv")%string);
        [destruct (read_excel (filename ++ ".xlsx")%string)|]; reflexivity. }
  split; [exact Hload|].
  unfold run_field_profiling. now rewrite Hload.
Qed.

(** A tab-delimited [.txt] file that [pd.read_table] reads without error is
    not loaded. *)
Lemma _load_data_from_file_txt_or_no_extension_raises_witness :
  let read_csv := fun _ : string => inr [("a", Numeric [Some 1])] in
  let read_excel := fun _ : string => inr [("b", Numeric [Some 2])] in
  let read_table := fun _ _ : string => inr [("c", Numeric [Some 3])] in
  let e := Raise "RuntimeError"
             "Could not detect correct delimiter for .txt file" in
  contains ".csv" "notes.txt" = false
  /\ contains ".xls" "notes.txt" = false
  /\ contains ".tsv" "notes.txt" = false
  /\ _load_data_from_file read_csv read_excel read_table "notes.txt" = inl e
  /\ run_field_profiling read_csv read_excel read_table decimal_of_str
       numeric_of_decimal "notes.txt" "index" true = inl e.
Proof.
  split; [reflexivity|]. split; [reflexivity|]. split; [reflexivity|].
  exact (_load_data_from_file_txt_or_no_extension_raises
           (fun _ => inr [("a", Numeric [Some 1])])
           (fun _ => inr [("b", Numeric [Some 2])])
           (fun _ _ => inr [("c", Numeric [Some 3])])
           decimal_of_str numeric_of_decimal "notes.txt" "index" true
           eq_refl eq_refl eq_refl).
Defined.

Lemma str_remove_absent (p0 : ascii) (pat' s : string) :
  contains (String p0 pat') s = false -> str_remove (String p0 pat') s = s.
Proof.
  unfold str_remove. induction s as [|a s IH]; [reflexivity|].
  intros H. cbn [contains] in H. apply orb_false_iff in H.
  destruct H as [Hstart Hrest].
  cbn [remove_from]. rewrite Hstart. now rewrite (IH Hrest).
Qed.

Lemma startswith_txt_x (r : string) :
  startswith "txt" (r ++ "x") = startswith "txt" r.
Proof.
  destruct r as [|a [|b [|c r]]]; simpl;
    repeat match goal with
           | |- context [Ascii.eqb ?x ?y] => destruct (Ascii.eqb x y); simpl
           end; reflexivity.
Qed.

Lemma contains_txt_x (r : string) :
  contains "txt" r = false -> contains "txt" (r ++ "x") = false.
Proof.
  induction r as [|a r IH]; [reflexivity|].
  intros H. cbn [contains] in H. apply orb_false_iff in H.
  destruct H as [Hstart Hrest].
  change (String a r ++ "x")%string with (String a (r ++ "x")).
  cbn [contains].
  change (String a (r ++ "x")) with (String a r ++ "x")%string.
  now rewrite startswith_txt_x, Hstart, (IH Hrest).
Qed.

(** The name of the spreadsheet, for an input name made of a stem without
    point and without ["txt"] and of an extension: the stem between
    ["profiled_"] and [".xlsx"] for [.csv], [.tsv] and [.xls]; for [.xlsx]
    the stem is followed by an ["x"], since [".xls"] is removed first. *)
Theorem output_file_of_stem (stem : string) :
  has_char "." stem = false ->
  contains "txt" stem = false ->
  output_file (stem ++ ".csv") = ("profiled_" ++ stem ++ ".xlsx")%string
  /\ output_file (stem ++ ".tsv") = ("profiled_" ++ stem ++ ".xlsx")%string
  /\ output_file (stem ++ ".xls") = ("profiled_" ++ stem ++ ".xlsx")%string
  /\ output_file (stem ++ ".xlsx") = ("profiled_" ++ stem ++ "x.xlsx")%string.
Proof.
  intros Hdot Htxt.
  assert (Hnil : forall u : string, (u ++ "")%string = u)
    by (induction u as [|x u IHu]; simpl; congruence).
  assert (Hstem : forall pat', str_remove (String "." pat') stem = stem)
    by (intros pat'; now apply str_remove_no_first_id).
  unfold output_file.
  repeat split.
  - rewrite (str_remove_no_first "." "csv" stem Hdot ".csv").
    change (str_remove ".csv" ".csv") with "". rewrite Hnil, !Hstem.
    now rewrite (str_remove_absent _ _ _ Htxt).
  - rewrite (str_remove_no_first "." "csv" stem Hdot ".tsv").
    change (str_remove ".csv" ".tsv") with ".tsv".
    rewrite (str_remove_no_first "." "xls" stem Hdot ".tsv").
    change (str_remove ".xls" ".tsv") with ".tsv".
    rewrite (str_remove_no_first "." "xlsx" stem Hdot ".tsv").
    change (str_remove ".xlsx" ".tsv") with ".tsv".
    rewrite (str_remove_no_first "." "tsv" stem Hdot ".tsv").
    change (str_remove ".tsv" ".tsv") with "". rewrite Hnil.
    now rewrite (str_remove_absent _ _ _ Htxt).
  - rewrite (str_remove_no_first "." "csv" stem Hdot ".xls").
    change (str_remove ".csv" ".xls") with ".xls".
    rewrite (str_remove_no_first "." "xls" stem Hdot ".xls").
    change (str_remove ".xls" ".xls") with "". rewrite Hnil, !Hstem.
    now rewrite (str_remove_absent _ _ _ Htxt).
  - rewrite (str_remove_no_first "." "csv" stem Hdot ".xlsx").
    change (str_remove ".csv" ".xlsx") with ".xlsx".
    rewrite (str_remove_no_first "." "xls" stem Hdot ".xlsx").
    change (str_remove ".xls" ".xlsx") with "x".
    assert (Hdotx : has_char "." (stem ++ "x") = false).
    { clear -Hdot. induction stem as [|a s IH]; simpl in *; [reflexivity|].
      apply orb_false_iff in Hdot. destruct Hdot as [-> Hs]. now apply IH. }
    rewrite !(str_remove_no_first_id "." _ _ Hdotx).
    rewrite (str_remove_absent _ _ _ (contains_txt_x _ Htxt)).
    now rewrite string_app_assoc.
Qed.

(** The stem ["sales_2024"]. *)
Lemma output_file_of_stem_witness :
  has_char "." "sales_2024" = false
  /\ contains "txt" "sales_2024" = false
  /\ output_file "sales_2024.csv" = "profiled_sales_2024.xlsx"
  /\ output_file "sales_2024.tsv" = "profiled_sales_2024.xlsx"
  /\ output_file "sales_2024.xls" = "profiled_sales_2024.xlsx"
  /\ output_file "sales_2024.xlsx" = "profiled_sales_2024x.xlsx".
Proof.
  split; [reflexivity|]. split; [reflexivity|].
  exact (output_file_of_stem "sales_2024" eq_refl eq_refl).
Defined.

(** ** The spreadsheet that is written *)

Lemma placements_from_nth (d : dict Subtable) :
  forall (idx i : nat) (k : string) (t : Subtable),
    nth_error d i = Some (k, t) ->
    nth_error (placements_from idx d) i = Some (((idx + i) * 3)%nat, t).
Proof.
  induction d as [|[k0 t0] d IH]; intros idx i k t; [now destruct i|].
  destruct i as [|i]; simpl.
  - intros [= _ ->]. now rewrite Nat.add_0_r.
  - intros H. rewrite (IH (S idx) i k t H). now rewrite Nat.add_succ_comm.
Qed.

Lemma placements_from_length (d : dict Subtable) (idx : nat) :
  length (placements_from idx d) = length d.
Proof.
  revert idx. induction d as [|[k t] d IH]; intros idx; simpl; auto.
Qed.

Lemma dict_get_nth {V : Type} (d : dict V) :
  forall (i : nat) (k : string) (v : V),
    NoDup (keys d) -> nth_error d i = Some (k, v) -> dict_get k d = Some v.
Proof.
  unfold keys.
  induction d as [|[k0 v0] d IH]; intros i k v Hnd; [now destruct i|].
  inversion Hnd as [|? ? Hnotin Hnd']; subst.
  destruct i as [|i]; simpl.
  - intros [= -> ->]. now rewrite String.eqb_refl.
  - intros H. destruct (String.eqb k0 k) eqn:E.
    + apply String.eqb_eq in E. subst k0. exfalso. apply Hnotin.
      apply nth_error_In in H. now apply (in_map fst) in H.
    + now apply (IH i).
Qed.

(** When [run_field_profiling] writes the spreadsheet of a table whose
    column names are pairwise different, the file has the name that
    [output_file] computes, and the summary of the column at position [i]
    of the table is written from column [3 * i] of the sheet on: two columns
    for each table, and an empty one before the next. *)
Theorem run_field_profiling_layout
  (read_csv read_excel : string -> result DataFrame)
  (read_table : string -> string -> result DataFrame)
  (float_of_str : string -> option Q)
  (numeric_of_str : string -> option (option Q))
  (input_file sort_by : string) (normalize : bool) (_table : DataFrame)
  (name : string) (written : list (nat * Subtable)) :
  _load_data_from_file read_csv read_excel read_table input_file
  = inr _table ->
  NoDup (column_names _table) ->
  run_field_profiling read_csv read_excel read_table float_of_str
    numeric_of_str input_file sort_by normalize = inr (name, written) ->
  name = output_file input_file
  /\ length written = length _table
  /\ exists df' out,
      _count_distinct_excel float_of_str numeric_of_str _table sort_by
        normalize = inr (df', out)
      /\ forall i col,
          nth_error (column_names _table) i = Some col ->
          exists t, dict_get col out = Some t
                    /\ nth_error written i = Some ((3 * i)%nat, t).
Proof.
  intros Hload Hnd. unfold run_field_profiling. rewrite Hload. simpl.
  destruct (_count_distinct_excel float_of_str numeric_of_str _table sort_by
              normalize) as [e|[df' out]] eqn:E; simpl; [discriminate|].
  intros [= <- <-].
  pose proof (_count_distinct_excel_order _ _ _ _ _ _ _ E Hnd) as Hkeys.
  split; [reflexivity|]. split.
  - rewrite placements_from_length.
    apply (f_equal (@length string)) in Hkeys.
    unfold column_names, keys in Hkeys. now rewrite !length_map in Hkeys.
  - exists df', out. split; [reflexivity|].
    intros i col Hi. rewrite <- Hkeys in Hi. unfold keys in Hi.
    rewrite nth_error_map in Hi.
    destruct (nth_error out i) as [[k t]|] eqn:Hout; [|discriminate].
    simpl in Hi. injection Hi as ->.
    exists t. split.
    + apply (dict_get_nth out i); [now rewrite Hkeys|exact Hout].
    + rewrite (placements_from_nth out 0 i col t Hout). simpl.
      now rewrite Nat.mul_comm.
Qed.

(** A file of three columns, read by [pd.read_csv]. *)
Lemma run_field_profiling_layout_witness :
  let table := [("price", Object [Some "$1,000"; Some "€500"]);
                ("n", Numeric [Some 1; Some 2]);
                ("fruit", Object [Some "apple"; None])] in
  let read_csv := fun _ : string => inr table in
  let read_excel := fun _ : string => raise "FileNotFoundError" "" in
  let read_table := fun _ _ : string => raise "FileNotFoundError" "" in
  exists name written,
    run_field_profiling read_csv read_excel read_table decimal_of_str
      numeric_of_decimal "sales.csv" "index" true = inr (name, written)
    /\ _load_data_from_file read_csv read_excel read_table "sales.csv"
       = inr table
    /\ NoDup (column_names table)
    /\ name = "profiled_sales.xlsx"
    /\ map fst written = [0; 3; 6]%nat
    /\ length written = length table
    /\ exists df' out,
        profile table "index" true = inr (df', out)
        /\ forall i col,
            nth_error (column_names table) i = Some col ->
            exists t, dict_get col out = Some t
                      /\ nth_error written i = Some ((3 * i)%nat, t).
Proof.
  assert (Hnd : NoDup ["price"; "n"; "fruit"]).
  { repeat (constructor; [simpl; intuition discriminate|]). constructor. }
  eexists. eexists.
  match goal with
  | |- ?P /\ _ => assert (Hrun : P) by (vm_compute; reflexivity)
  end.
  split; [exact Hrun|]. split; [reflexivity|]. split; [exact Hnd|].
  split; [reflexivity|]. split; [reflexivity|].
  exact (proj2 (run_field_profiling_layout _ _ _ decimal_of_str numeric_of_decimal
                  "sales.csv" "index" true
                  [("price", Object [Some "$1,000"; Some "€500"]);
                   ("n", Numeric [Some 1; Some 2]);
                   ("fruit", Object [Some "apple"; None])]
                  _ _ eq_refl Hnd Hrun)).
Defined.

(** ** When the summariser returns *)







(** * The summariser after the classifier *)

(** ** Every column under the type the classifier gives it *)








(** ** A column the classifier types currency *)



